(** * Alterrain: the authoritative game server, its world and its trees

    A shallow embedding of [src/app/game/world.js] (class [World]), of the
    [Tree] game object and of [app/server.js] (class [Server]), followed by
    the properties of the specification that were checked against them.

    Conventions of the embedding:
    - a JavaScript Number that the code uses as a counter, a coordinate or a
      tile id is a [Z] (the values met here stay far below 2^53, where
      Number arithmetic on integers is exact);
    - [undefined] is [None];
    - a JavaScript Array is a [list], read through [js_get] (a missing
      index reads as [undefined]) and written through [js_put] (a write past
      the end extends the array with holes);
    - a JavaScript Map whose iteration order matters is an association list
      in insertion order; a Map that is only read by key and sized is a
      [gmap];
    - a call that may throw returns a [result]; mutation is explicit state
      passing; what the code sends or logs is appended to a trace;
    - what the sources call and do not contain is a parameter: the tables
      of [shared/constant.js], the classes [Player] and [Character], the
      [CommandFactory], and the members of [World] that [Server] calls and
      [world.js] does not define ([players], [addPlayer], [removePlayer],
      [tilemap.serialize], [getTreePosArray], [getChestPosArray],
      [currentWeather]). *)

From Stdlib Require Import ZArith QArith List Bool Lia.
From stdpp Require Import base option list numbers strings gmap.

Local Open Scope Z_scope.

(** ** JavaScript basics *)

Inductive JsError : Type :=
| TypeError.

Inductive result (A : Type) : Type :=
| Ok (a : A)
| Throw (e : JsError).

Arguments Ok {A} a.
Arguments Throw {A} e.

(** [arr[i]] for an integer [i]: [undefined] below 0 and past the end. *)
Definition js_get {A : Type} (arr : list A) (i : Z) : option A :=
  if bool_decide (i < 0) then None else arr !! Z.to_nat i.

(** [arr[i] = v] for [0 <= i] on an array with holes. *)
Definition js_put {A : Type} (arr : list (option A)) (i : Z) (v : A)
  : list (option A) :=
  let n := Z.to_nat i in
  if bool_decide (n < length arr)%nat
  then <[n := Some v]> arr
  else arr ++ replicate (n - length arr)%nat None ++ [Some v].

(** ToInt32 on an integer. *)
Definition toInt32 (z : Z) : Z :=
  let m := z mod 2 ^ 32 in
  if bool_decide (m < 2 ^ 31) then m else m - 2 ^ 32.

(** [a << n] on 32-bit integers: the shift count is taken modulo 32. *)
Definition shl32 (a n : Z) : Z := toInt32 (Z.shiftl a (n mod 32)).

(** ** The world ([src/app/game/world.js]) *)

(** A row of the tile map or of the object map: numbers and holes. *)
Abbreviation Row := (list (option Z)).

(** What [changeTile] logs and emits, in order. *)
Inductive WorldEffect : Type :=
| LogInvalidTile (x y : Z)          (* logger.error(`Invalid tile position at (x,y)`) *)
| LogTileChanged (x y tileId : Z)   (* logger.debug(`Tile at (x, y) is changed to tileId.`) *)
| EmitWorldUpdate (tiles : list (Z * Z * Z)). (* server.io.emit('worldUpdate', {tiles}) *)

(** [Tiles.GRASS] of [shared/constant.js], by the numbering [world.js]
    documents ("0 = grass"; [generateTrees] tests [tileType === 0] for
    grass). *)
Definition Tiles_GRASS : Z := 0.

(** [Tiles.STONE], likewise ("2 = stone"). *)
Definition Tiles_STONE : Z := 2.

Section WorldModel.

(** The characters kept in [world.objects]: the classes [Character] and
    [Player] of [./character] and [./player.js]. *)
Variable Character : Type.

(** [TileData] of [shared/constant.js]: [TileData[tile]], [None] where the
    table has no entry. *)
Variable TileData : Z -> option Z.

Record World : Type := mkWorld {
  width : Z;
  height : Z;
  tileMap : list Row;
  (** [objectMap] is only created by [initObjectMap], which
      [initWorldData] skips when the tile map was loaded from disk. *)
  objectMap : option (list Row);
  (** [objects : Map<Number, Character>], in insertion order. *)
  objects : list (Z * Character);
  stepCount : Z
}.

Definition isValidTile (w : World) (x y : Z) : bool :=
  bool_decide (0 <= x) && bool_decide (x < width w)
  && bool_decide (0 <= y) && bool_decide (y < height w).

(** [this.tileMap[x][y]]: reading a property of [undefined] throws. *)
Definition cell (m : list Row) (x y : Z) : result (option Z) :=
  match js_get m x with
  | None => Throw TypeError
  | Some row => Ok (mjoin (js_get row y))
  end.

(** [TileData[tile] === 0]. *)
Definition tilePasses (tile : option Z) : bool :=
  match tile with
  | None => false
  | Some t => bool_decide (TileData t = Some 0)
  end.

(** [obj >= 0], with [undefined >= 0] false. *)
Definition occupied (obj : option Z) : bool :=
  match obj with
  | None => false
  | Some o => bool_decide (0 <= o)
  end.

Definition checkPassage (w : World) (x y bit : Z) : result bool :=
  match cell (tileMap w) x y with
  | Throw e => Throw e
  | Ok tile => Ok (tilePasses tile)
  end.

Definition checkObject (w : World) (x y bit : Z) : result bool :=
  match objectMap w with
  | None => Throw TypeError
  | Some om =>
      match cell om x y with
      | Throw e => Throw e
      | Ok obj => Ok (occupied obj)
      end
  end.

(** [(1 << (d / 2 - 1)) & 0x0f] for an integer direction [d]: the shift
    count [d / 2 - 1] is truncated toward zero by ToInt32. *)
Definition directionBit (d : Z) : Z :=
  Z.land (shl32 1 (Z.quot (d - 2) 2)) 15.

(** [checkPassage(...) && !checkObject(...)], with the short circuit. *)
Definition isPassable (w : World) (x y d : Z) : result bool :=
  match checkPassage w x y (directionBit d) with
  | Throw e => Throw e
  | Ok false => Ok false
  | Ok true =>
      match checkObject w x y (directionBit d) with
      | Throw e => Throw e
      | Ok b => Ok (negb b)
      end
  end.

Definition setTileMap (w : World) (m : list Row) : World :=
  mkWorld (width w) (height w) m (objectMap w) (objects w) (stepCount w).

(** [changeTile(x, y, tileId = Tiles.GRASS)]: the new world and what was
    logged and emitted. The assignment [this.tileMap[x][y] = tileId]
    throws when row [x] does not exist. *)
Definition changeTile (w : World) (x y : Z) (tileId : option Z)
  : result (World * list WorldEffect) :=
  let tileId := default Tiles_GRASS tileId in
  if negb (isValidTile w x y) then Ok (w, [LogInvalidTile x y])
  else
    match js_get (tileMap w) x with
    | None => Throw TypeError
    | Some row =>
        Ok (setTileMap w (<[Z.to_nat x := js_put row y tileId]> (tileMap w)),
            [LogTileChanged x y tileId; EmitWorldUpdate [(x, y, tileId)]])
    end.

End WorldModel.

Arguments mkWorld {Character}.
Arguments width {Character}.
Arguments height {Character}.
Arguments tileMap {Character}.
Arguments objectMap {Character}.
Arguments objects {Character}.
Arguments stepCount {Character}.
Arguments isValidTile {Character}.
Arguments checkPassage {Character}.
Arguments checkObject {Character}.
Arguments isPassable {Character}.
Arguments setTileMap {Character}.
Arguments changeTile {Character}.

(** ** Trees ([Tree], a [GameObject]) *)

Record Tree : Type := mkTree {
  tree_x : Z;
  tree_y : Z;
  durability : Z;
  loot : Z
}.

(** [new Tree(world, x, y)]; [d] is what [util.integerInRange(1, 4)]
    returned. *)
Definition newTree (x y d : Z) : Tree := mkTree x y d Tiles_STONE.

(** A call [player.gainItem(item, count)] received by the interacting
    player. *)
Record GainItem : Type := mkGainItem {
  item : Z;
  count : Z
}.

(** [onInteraction(player)]: the tree afterwards and the [gainItem] call
    made on the player, if any. [roll] is what [util.integerInRange(1, 2)]
    returns when the call reaches it. *)
Definition onInteraction (t : Tree) (roll : Z) : Tree * option GainItem :=
  let t' := mkTree (tree_x t) (tree_y t) (durability t - 1) (loot t) in
  if bool_decide (durability t' <= 0)
  then (t', Some (mkGainItem (loot t') roll))
  else (t', None).

(** Successive interactions with one tree, one roll per call: the tree
    afterwards and, call by call, what the player gained. *)
Fixpoint interact (t : Tree) (rolls : list Z) : Tree * list (option GainItem) :=
  match rolls with
  | [] => (t, [])
  | roll :: rolls' =>
      let '(t1, g) := onInteraction t roll in
      let '(t2, gs) := interact t1 rolls' in
      (t2, g :: gs)
  end.

(** The number of calls that granted loot. *)
Definition grants (gs : list (option GainItem)) : nat :=
  length (filter is_Some gs).

(** ** The server ([Server]) *)

(** *** Values exchanged with clients *)

Inductive JsValue : Type :=
| JsUndefined
| JsNull
| JsBool (b : bool)
| JsNumber (n : Z)
| JsString (s : string).

(** A value as it is handed to socket.io to be sent. *)
#[warnings="-register-all"]
Inductive Json : Type :=
| JNull
| JBool (b : bool)
| JNumber (n : Z)
| JString (s : string)
| JArray (items : list Json)
| JObject (fields : list (string * Json)).

(** Modelled from the spec: [Commands.MOVEMENT] of [shared/constant.js],
    the [type] of an inbound [Move] envelope ([Move=1]); the client sends
    [type: 1] for a move. *)
Definition Commands_MOVEMENT : JsValue := JsNumber 1.

(** Modelled from the spec: [Commands.ALTER_TILE] ([AlterTile=2]). *)
Definition Commands_ALTER_TILE : JsValue := JsNumber 2.

(** Modelled from the spec: [Commands.COMMUNICATION] ([Communicate=3]). *)
Definition Commands_COMMUNICATION : JsValue := JsNumber 3.

(** Modelled from the spec: [Commands.INTERACTION] ([Interact=4]). *)
Definition Commands_INTERACTION : JsValue := JsNumber 4.

(** The case label a [switch (cmd.type)] selects: [===] against the four
    labels in order, else [default]. *)
Inductive CommandKind : Type :=
| Movement
| AlterTile
| Communication
| Interaction.

Definition js_strict_eqb (a b : JsValue) : bool :=
  match a, b with
  | JsUndefined, JsUndefined => true
  | JsNull, JsNull => true
  | JsBool x, JsBool y => bool_decide (x = y)
  | JsNumber x, JsNumber y => bool_decide (x = y)
  | JsString x, JsString y => bool_decide (x = y)
  | _, _ => false
  end.

Definition switchCommand (ty : JsValue) : option CommandKind :=
  if js_strict_eqb ty Commands_MOVEMENT then Some Movement
  else if js_strict_eqb ty Commands_ALTER_TILE then Some AlterTile
  else if js_strict_eqb ty Commands_COMMUNICATION then Some Communication
  else if js_strict_eqb ty Commands_INTERACTION then Some Interaction
  else None.

(** [ServerConfig] of [shared/constant.js]; [None] is a missing key. *)
Record ServerConfig : Type := mkServerConfig {
  STEP_RATE : option Z;
  MAX_PLAYERS : option Z;
  TIMEOUT_INTERVAL : option Z
}.

(** [v || d] on a number or [undefined]: [0] and [undefined] are falsy. *)
Definition js_or (v : option Z) (d : Z) : Z :=
  match v with
  | Some n => if bool_decide (n = 0) then d else n
  | None => d
  end.

(** [socket.id]. *)
Abbreviation SocketId := string.

(** *** JavaScript Maps in insertion order *)

Fixpoint Map_get {V : Type} (k : Z) (m : list (Z * V)) : option V :=
  match m with
  | [] => None
  | (k', v) :: m' => if bool_decide (k = k') then Some v else Map_get k m'
  end.

Fixpoint Map_set {V : Type} (k : Z) (v : V) (m : list (Z * V)) : list (Z * V) :=
  match m with
  | [] => [(k, v)]
  | (k', v') :: m' =>
      if bool_decide (k = k') then (k, v) :: m' else (k', v') :: Map_set k v m'
  end.

Fixpoint Map_delete {V : Type} (k : Z) (m : list (Z * V)) : list (Z * V) :=
  match m with
  | [] => []
  | (k', v') :: m' =>
      if bool_decide (k = k') then m' else (k', v') :: Map_delete k m'
  end.

(** *** Searching for a spawn tile *)

Inductive SpawnSearch : Type :=
| Spawned (x y : Z)            (* the loop was left with [newX, newY] *)
| SpawnThrew (e : JsError)     (* [isPassable] threw *)
| StillSearching.              (* the loop is still running *)

Section SpawnModel.

Variable Character : Type.
Variable TileData : Z -> option Z.

(** [do { newX = ...; newY = ...; } while (!this.world.isPassable(newX,
    newY, 2))]. [draw i] is the pair [(Math.floor(Math.random() *
    WorldConfig.WIDTH), Math.floor(Math.random() * WorldConfig.HEIGHT))]
    of iteration [i]; [fuel] bounds the iterations that are followed. *)
Fixpoint spawnSearch (fuel : nat) (draw : nat -> Z * Z) (i : nat)
    (w : World Character) : SpawnSearch :=
  match fuel with
  | O => StillSearching
  | S fuel' =>
      let '(newX, newY) := draw i in
      match isPassable TileData w newX newY 2 with
      | Throw e => SpawnThrew e
      | Ok true => Spawned newX newY
      | Ok false => spawnSearch fuel' draw (S i) w
      end
  end.

End SpawnModel.

Arguments spawnSearch {Character}.

(** *** The server's state *)

(** An entry of [connectedPlayers]. *)
Record Client : Type := mkClient {
  socket : SocketId;
  state : string;
  playerId : Z
}.

(** The [playerEvent] object of a connection. *)
Record PlayerEvent : Type := mkPlayerEvent {
  ev_id : SocketId;
  ev_playerId : Z;
  joinTime : Z;
  disconnectTime : Z;
  ev_x : option Z;
  ev_y : option Z
}.

(** What [logger] is given, message by message. *)
Inductive LogLine : Type :=
| LogClientConnected (onlineCount : Z)     (* `[n] A Client connected` *)
| LogJoined (ev : PlayerEvent)             (* `[id] Has joined the world ...` *)
| LogDisconnect (ev : PlayerEvent)         (* `[id][playerEvent] disconnect ...` *)
| LogClientDisconnected (onlineCount : Z)  (* `[n] A Client disconnected` *)
| LogShouldNotHappen                       (* logger.error('should not happen') *)
| LogInvalidCommand (ty : JsValue)         (* logger.error(`Invalid Command ty`) *)
| LogTimedOut (seconds : Z).               (* `A Client timed out after n seconds` *)

(** A socket object, as far as the server reads and writes it. *)
Record SocketObj : Type := mkSocketObj {
  idleTimeout : option Z;          (* socket.idleTimeout: a timer handle *)
  connected : bool;                (* false once the socket is closed *)
  onDisconnect : option PlayerEvent; (* the 'disconnect' listener and the event it captured *)
  onInputCommand : option Z        (* the 'inputCommand' listener and the playerId it captured *)
}.

Definition freshSocket : SocketObj := mkSocketObj None true None None.

(** What the server and the world call into and the sources do not
    contain: [shared/constant.js], [game/player.js], [game/character.js],
    [game/command], and the members of [World] that [world.js] does not
    define. *)
Class Game (Character Params : Type) : Type := mkGame {
  (** [TileData] of [shared/constant.js]. *)
  TileData : Z -> option Z;
  (** [new Player(world, x, y, playerId)]. *)
  newPlayer : Z -> Z -> Z -> Character;
  (** [character.update()]. *)
  update : Character -> Character;
  (** [CommandFactory]: each maker returns a closure over the player and the
      parameters, which [world.processInput] later calls. *)
  makeMoveCommand : option Character -> Params -> World Character -> World Character;
  makeChangeTileCommand : option Character -> Params -> World Character -> World Character;
  makeCommunicateCommand : option Character -> Params -> World Character -> World Character;
  makeInteractCommand : option Character -> Params -> World Character -> World Character;
  (** The members of [World] that [Server] calls and [world.js] does not
      define. [world.players]: a Map from player id to character. *)
  players : World Character -> list (Z * Character);
  (** [world.addPlayer(x, y, playerId)]: the world afterwards. *)
  addPlayer : World Character -> Z -> Z -> Z -> World Character;
  (** [world.removePlayer(playerId)]: the world afterwards. *)
  removePlayer : World Character -> Z -> World Character;
  (** [world.tilemap.serialize()]. *)
  serializeTilemap : World Character -> Json;
  (** [world.getTreePosArray()]. *)
  getTreePosArray : World Character -> Json;
  (** [world.getChestPosArray()]. *)
  getChestPosArray : World Character -> Json;
  (** [world.currentWeather]. *)
  currentWeather : World Character -> Json
}.

Section ServerModel.

Context {Character Params : Type} `{!Game Character Params}.

(** A queued command: a closure that acts on the world when called. *)
Definition Command : Type := World Character -> World Character.

(** An inbound command envelope [{type, params}]: an object, of which
    [cmd.type] and [cmd.params] are read (a missing field reads as
    [undefined]; so does every field of a number, a string or a boolean).
    What a client emits with ['inputCommand'] is an [option Envelope]:
    [None] is [undefined] or [null], of which no field can be read. *)
Record Envelope : Type := mkEnvelope {
  type : JsValue;
  params : Params
}.

(** An element of [outgoingBuffer]: [{t: gameTick, d: describeAll(players)}];
    [d] holds the players that were given to [describeAll]. *)
Record Payload : Type := mkPayload {
  t : Z;
  d : list (Z * Character)
}.

(** The data of an ['initWorld'] message; [init_players], [init_trees] and
    [init_chests] hold what was given to [describeAll]. *)
Record InitWorld : Type := mkInitWorld {
  init_players : list (Z * Character);
  init_tiles : Json;
  init_trees : Json;
  init_chests : Json;
  init_id : Z;
  init_weather : Json
}.

(** What the server sends. *)
Inductive Message : Type :=
| EmitUpdate (buffer : list Payload)                        (* io.emit('update', outgoingBuffer) *)
| EmitInitWorld (to : SocketId) (data : InitWorld)          (* socket.emit('initWorld', ...) *)
| BroadcastPlayerEvent (from : SocketId) (ev : option PlayerEvent).
                                                            (* socket.broadcast.emit('playerEvent', ev) *)

(** The fields of the [Server] object, once [initWorld] and [start] have run. *)
Record Server : Type := mkServer {
  connectedPlayers : gmap SocketId Client;
  playerInputQueues : list (Z * list Command);
  intervalFrameRate : Z;
  maximumPlayer : Z;
  timeoutInterval : Z;
  lastPlayerID : Z;
  world : World Character;
  gameTick : Z;
  outgoingBuffer : list Payload;
  outgoingDelta : Z;
  serverStartTime : Z;
  lastServerTime : Z
}.

(** What surrounds the server: the socket objects, the pending
    [setTimeout] callbacks (handle, socket to time out, delay in ms the
    timer was armed with), the next timer handle, and the traces of
    messages and log lines. *)
Record Runtime : Type := mkRuntime {
  sockets : gmap SocketId SocketObj;
  timers : gmap Z (SocketId * Z);
  nextTimer : Z;
  sent : list Message;
  logged : list LogLine
}.

Record State : Type := mkState {
  srv : Server;
  rt : Runtime
}.

(** How a handler ends: normally, by an exception that leaves it, or
    never within the iterations followed. Each carries the state reached. *)
Inductive Outcome : Type :=
| Done (s : State)
| Crashed (e : JsError) (s : State)
| Hung (s : State).

Definition stateOf (o : Outcome) : State :=
  match o with
  | Done s | Crashed _ s | Hung s => s
  end.

(** **** Field updates *)

Definition set_connectedPlayers (v : gmap SocketId Client) (sv : Server) : Server :=
  mkServer v (playerInputQueues sv) (intervalFrameRate sv) (maximumPlayer sv)
    (timeoutInterval sv) (lastPlayerID sv) (world sv) (gameTick sv)
    (outgoingBuffer sv) (outgoingDelta sv) (serverStartTime sv) (lastServerTime sv).

Definition set_playerInputQueues (v : list (Z * list Command)) (sv : Server) : Server :=
  mkServer (connectedPlayers sv) v (intervalFrameRate sv) (maximumPlayer sv)
    (timeoutInterval sv) (lastPlayerID sv) (world sv) (gameTick sv)
    (outgoingBuffer sv) (outgoingDelta sv) (serverStartTime sv) (lastServerTime sv).

Definition set_lastPlayerID (v : Z) (sv : Server) : Server :=
  mkServer (connectedPlayers sv) (playerInputQueues sv) (intervalFrameRate sv)
    (maximumPlayer sv) (timeoutInterval sv) v (world sv) (gameTick sv)
    (outgoingBuffer sv) (outgoingDelta sv) (serverStartTime sv) (lastServerTime sv).

Definition set_world (v : World Character) (sv : Server) : Server :=
  mkServer (connectedPlayers sv) (playerInputQueues sv) (intervalFrameRate sv)
    (maximumPlayer sv) (timeoutInterval sv) (lastPlayerID sv) v (gameTick sv)
    (outgoingBuffer sv) (outgoingDelta sv) (serverStartTime sv) (lastServerTime sv).

Definition set_gameTick (v : Z) (sv : Server) : Server :=
  mkServer (connectedPlayers sv) (playerInputQueues sv) (intervalFrameRate sv)
    (maximumPlayer sv) (timeoutInterval sv) (lastPlayerID sv) (world sv) v
    (outgoingBuffer sv) (outgoingDelta sv) (serverStartTime sv) (lastServerTime sv).

Definition set_outgoingBuffer (v : list Payload) (sv : Server) : Server :=
  mkServer (connectedPlayers sv) (playerInputQueues sv) (intervalFrameRate sv)
    (maximumPlayer sv) (timeoutInterval sv) (lastPlayerID sv) (world sv) (gameTick sv)
    v (outgoingDelta sv) (serverStartTime sv) (lastServerTime sv).

Definition set_lastServerTime (v : Z) (sv : Server) : Server :=
  mkServer (connectedPlayers sv) (playerInputQueues sv) (intervalFrameRate sv)
    (maximumPlayer sv) (timeoutInterval sv) (lastPlayerID sv) (world sv) (gameTick sv)
    (outgoingBuffer sv) (outgoingDelta sv) (serverStartTime sv) v.

Definition onServer (f : Server -> Server) (s : State) : State :=
  mkState (f (srv s)) (rt s).

Definition onRuntime (f : Runtime -> Runtime) (s : State) : State :=
  mkState (srv s) (f (rt s)).

Definition log (l : LogLine) (s : State) : State :=
  onRuntime (fun r => mkRuntime (sockets r) (timers r) (nextTimer r) (sent r)
                        (logged r ++ [l])) s.

Definition send (m : Message) (s : State) : State :=
  onRuntime (fun r => mkRuntime (sockets r) (timers r) (nextTimer r)
                        (sent r ++ [m]) (logged r)) s.

(** The socket object behind a socket id; one never seen before is fresh. *)
Definition socketOf (sid : SocketId) (s : State) : SocketObj :=
  default freshSocket (sockets (rt s) !! sid).

Definition setSocket (sid : SocketId) (so : SocketObj) (s : State) : State :=
  onRuntime (fun r => mkRuntime (<[sid := so]> (sockets r)) (timers r)
                        (nextTimer r) (sent r) (logged r)) s.

(** [clearTimeout(h)]. *)
Definition clearTimeout (h : Z) (s : State) : State :=
  onRuntime (fun r => mkRuntime (sockets r) (delete h (timers r))
                        (nextTimer r) (sent r) (logged r)) s.

(** The delay a timer of Node.js is armed with: one that is not within
    1 .. 2^31 - 1 ms is replaced by 1 ms. *)
Definition timerDelay (delay : Z) : Z :=
  if bool_decide (1 <= delay <= 2147483647) then delay else 1.

(** [setTimeout(() => this.onPlayerTimeout(socket), delay)]: the handle
    and the state with the callback pending, under the delay it is armed
    with. *)
Definition setTimeout (sid : SocketId) (delay : Z) (s : State) : Z * State :=
  let h := nextTimer (rt s) in
  (h, onRuntime (fun r => mkRuntime (sockets r)
                            (<[h := (sid, timerDelay delay)]> (timers r))
                            (h + 1) (sent r) (logged r)) s).

(** **** The world's own methods on its characters *)

(** [world.processInput(command)]: [command()]. *)
Definition processInput (command : Command) (w : World Character) : World Character :=
  command w.

(** [world.step(dt)]: every character is updated. *)
Definition World_step (dt : Z) (w : World Character) : World Character :=
  mkWorld (width w) (height w) (tileMap w) (objectMap w)
    (map (fun kc => (kc.1, update kc.2)) (objects w)) (stepCount w).

(** [addObject(x, y, playerId)] of [world.js]. *)
Definition addObject (w : World Character) (x y playerId : Z) : World Character :=
  mkWorld (width w) (height w) (tileMap w) (objectMap w)
    (Map_set playerId (newPlayer x y playerId) (objects w)) (stepCount w).

(** [removeObject(playerId)] of [world.js]. *)
Definition removeObject (w : World Character) (playerId : Z) : World Character :=
  mkWorld (width w) (height w) (tileMap w) (objectMap w)
    (Map_delete playerId (objects w)) (stepCount w).

Definition setStepCount (n : Z) (w : World Character) : World Character :=
  mkWorld (width w) (height w) (tileMap w) (objectMap w) (objects w) n.

(** **** The constructor, [initWorld] and [start] *)

(** The server after [new Server(io)], [initWorld] (which built [w]) and
    [start()] at time [timeNow]. *)
Definition newServer (cfg : ServerConfig) (w : World Character) (timeNow : Z) : Server :=
  let intervalFrameRate := js_or (STEP_RATE cfg) 60 in
  mkServer ∅ [] intervalFrameRate (js_or (MAX_PLAYERS cfg) 50)
    (js_or (TIMEOUT_INTERVAL cfg) 40) 0 w 0 []
    (2000 `div` intervalFrameRate)  (* Math.floor((1000 / intervalFrameRate) * 2) *)
    timeNow timeNow.

Definition newRuntime : Runtime := mkRuntime ∅ ∅ 1 [] [].

Definition newState (cfg : ServerConfig) (w : World Character) (timeNow : Z) : State :=
  mkState (newServer cfg w timeNow) newRuntime.

Definition getSeverTime (timeNow : Z) (sv : Server) : Z :=
  timeNow - serverStartTime sv.

(** **** The idle timeout *)

Definition resetIdleTimeout (sid : SocketId) (s : State) : State :=
  let s1 := match idleTimeout (socketOf sid s) with
            | Some h => clearTimeout h s
            | None => s
            end in
  if bool_decide (timeoutInterval (srv s1) > 0) then
    let '(h, s2) := setTimeout sid (timeoutInterval (srv s1) * 1000) s1 in
    let so := socketOf sid s2 in
    setSocket sid
      (mkSocketObj (Some h) (connected so) (onDisconnect so) (onInputCommand so)) s2
  else s1.

(** **** One game step and one firing of the interval *)

(** The [forEach] over [playerInputQueues]: each queue's commands are
    processed in array order, then [commands.length = 0]. *)
Fixpoint drain (queues : list (Z * list Command)) (w : World Character)
  : list (Z * list Command) * World Character :=
  match queues with
  | [] => ([], w)
  | (playerId, commands) :: rest =>
      let w1 := fold_left (fun w0 cmd => processInput cmd w0) commands w in
      let '(rest', w2) := drain rest w1 in
      ((playerId, []) :: rest', w2)
  end.

(** The queues with every array emptied in place. *)
Definition emptied (queues : list (Z * list Command)) : list (Z * list Command) :=
  map (fun q => (q.1, [])) queues.

Definition step (dt : Z) (sv : Server) : Server :=
  let w1 := setStepCount (stepCount (world sv) + 1) (world sv) in
  let '(queues, w2) := drain (playerInputQueues sv) w1 in
  set_world (World_step dt w2) (set_playerInputQueues queues sv).

Definition sendOutgoingBuffer (s : State) : State :=
  onServer (set_outgoingBuffer []) (send (EmitUpdate (outgoingBuffer (srv s))) s).

(** The callback [start()] gives to [setInterval]. *)
Definition tick (timeNow : Z) (s : State) : State :=
  let dt := timeNow - lastServerTime (srv s) in
  let s1 := onServer (step dt) s in
  let s2 :=
    if bool_decide (size (connectedPlayers (srv s1)) ≠ 0%nat) then
      let str := players (world (srv s1)) in
      sendOutgoingBuffer
        (onServer (fun sv => set_outgoingBuffer
                               (outgoingBuffer sv ++ [mkPayload (gameTick sv) str]) sv) s1)
    else s1 in
  onServer (fun sv => set_gameTick (gameTick sv + 1) (set_lastServerTime timeNow sv)) s2.

(** **** Connections *)

(** [onPlayerJoinWorld(socket, playerEvent)]: the event object as it was
    left, and the outcome. [world.emit('playerSpawn')] has no listener in
    the sources and is left out. *)
Definition onPlayerJoinWorld (fuel : nat) (draw : nat -> Z * Z) (sid : SocketId)
    (playerEvent : PlayerEvent) (s : State) : PlayerEvent * Outcome :=
  let s1 := resetIdleTimeout sid s in
  match spawnSearch TileData fuel draw 0 (world (srv s1)) with
  | StillSearching => (playerEvent, Hung s1)
  | SpawnThrew e => (playerEvent, Crashed e s1)
  | Spawned newX newY =>
      let ev := mkPlayerEvent (ev_id playerEvent) (ev_playerId playerEvent)
                  (joinTime playerEvent) (disconnectTime playerEvent)
                  (Some newX) (Some newY) in
      let s2 := onServer (fun sv => set_world
                   (addPlayer (world sv) newX newY (ev_playerId ev)) sv) s1 in
      let w := world (srv s2) in
      let s3 := send (EmitInitWorld sid
                        (mkInitWorld (players w) (serializeTilemap w)
                           (getTreePosArray w) (getChestPosArray w)
                           (ev_playerId ev) (currentWeather w))) s2 in
      let s4 := send (BroadcastPlayerEvent sid (Some ev)) s3 in
      let so := socketOf sid s4 in
      (ev, Done (setSocket sid
                   (mkSocketObj (idleTimeout so) (connected so) (onDisconnect so)
                      (Some (ev_playerId ev))) s4))
  end.

Definition onPlayerConnected (fuel : nat) (draw : nat -> Z * Z) (timeNow : Z)
    (sid : SocketId) (s : State) : Outcome :=
  let onlineCount := Z.of_nat (size (connectedPlayers (srv s))) + 1 in
  let s1 := log (LogClientConnected onlineCount) s in
  let playerId := lastPlayerID (srv s1) + 1 in
  let s2 := onServer (set_lastPlayerID playerId) s1 in
  let s3 := onServer (fun sv =>
              set_connectedPlayers
                (<[sid := mkClient sid "new" playerId]> (connectedPlayers sv))
                (set_playerInputQueues (Map_set playerId [] (playerInputQueues sv)) sv))
              s2 in
  let playerEvent :=
    mkPlayerEvent sid playerId (getSeverTime timeNow (srv s3)) 0 None None in
  let s4 := log (LogJoined playerEvent) s3 in
  match onPlayerJoinWorld fuel draw sid playerEvent s4 with
  | (ev, Done s5) =>
      let so := socketOf sid s5 in
      Done (setSocket sid
              (mkSocketObj (idleTimeout so) (connected so) (Some ev)
                 (onInputCommand so)) s5)
  | (_, o) => o
  end.

Definition onPlayerDisconnected (sid : SocketId) (s : State) : State :=
  let s1 := match connectedPlayers (srv s) !! sid with
            | Some player =>
                onServer (fun sv => set_world
                            (removePlayer (world sv) (playerId player)) sv) s
            | None => log LogShouldNotHappen s
            end in
  let s2 := onServer (fun sv => set_connectedPlayers
                                  (delete sid (connectedPlayers sv)) sv) s1 in
  log (LogClientDisconnected (Z.of_nat (size (connectedPlayers (srv s2))))) s2.

(** The ['disconnect'] listener that [onPlayerConnected] registers. *)
Definition disconnectListener (timeNow : Z) (sid : SocketId)
    (playerEvent : PlayerEvent) (s : State) : State :=
  let ev := mkPlayerEvent (ev_id playerEvent) (ev_playerId playerEvent)
              (joinTime playerEvent) (getSeverTime timeNow (srv s))
              (ev_x playerEvent) (ev_y playerEvent) in
  let s1 := send (BroadcastPlayerEvent sid None) s in
  let s2 := onPlayerDisconnected sid s1 in
  let s3 := log (LogDisconnect ev) s2 in
  let so := socketOf sid s3 in
  setSocket sid
    (mkSocketObj (idleTimeout so) (connected so) (Some ev) (onInputCommand so)) s3.

(** The socket closes, by [socket.disconnect()] or from the client's
    side: its ['disconnect'] listener runs once. *)
Definition closeSocket (timeNow : Z) (sid : SocketId) (s : State) : State :=
  let so := socketOf sid s in
  if connected so then
    let s1 := setSocket sid
                (mkSocketObj (idleTimeout so) false (onDisconnect so)
                   (onInputCommand so)) s in
    match onDisconnect so with
    | Some playerEvent => disconnectListener timeNow sid playerEvent s1
    | None => s1
    end
  else s.

Definition onPlayerTimeout (timeNow : Z) (sid : SocketId) (s : State) : State :=
  closeSocket timeNow sid (log (LogTimedOut (timeoutInterval (srv s))) s).

(** **** Input *)

Definition queueInputForPlayer (cmd : Command) (playerId : Z) (s : State) : Outcome :=
  match Map_get playerId (playerInputQueues (srv s)) with
  | None => Crashed TypeError s   (* queue.push on undefined *)
  | Some queue =>
      Done (onServer (fun sv => set_playerInputQueues
                        (Map_set playerId (queue ++ [cmd]) (playerInputQueues sv)) sv) s)
  end.

(** [onReceivedInput(cmd, socket, playerId)]; [cmd] is whatever the client
    emitted, and [cmd.type] throws when it is [undefined] or [null]. *)
Definition onReceivedInput (cmd : option Envelope) (sid : SocketId) (playerId : Z)
    (s : State) : Outcome :=
  let player := Map_get playerId (players (world (srv s))) in
  let s1 := resetIdleTimeout sid s in
  match cmd with
  | None => Crashed TypeError s1
  | Some cmd =>
      match switchCommand (type cmd) with
      | Some Movement =>
          queueInputForPlayer (makeMoveCommand player (params cmd)) playerId s1
      | Some AlterTile =>
          queueInputForPlayer (makeChangeTileCommand player (params cmd)) playerId s1
      | Some Communication =>
          queueInputForPlayer (makeCommunicateCommand player (params cmd)) playerId s1
      | Some Interaction =>
          queueInputForPlayer (makeInteractCommand player (params cmd)) playerId s1
      | None => Done (log (LogInvalidCommand (type cmd)) s1)
      end
  end.

(** **** What happens to a running server *)

Inductive Event : Type :=
| Connection (sid : SocketId) (timeNow : Z) (draw : nat -> Z * Z)
| Disconnect (sid : SocketId) (timeNow : Z)
| InputCommand (sid : SocketId) (cmd : option Envelope)
| TimerFires (h : Z) (timeNow : Z)
| IntervalFires (timeNow : Z).

Definition handle (fuel : nat) (e : Event) (s : State) : Outcome :=
  match e with
  | Connection sid timeNow draw =>
      onPlayerConnected fuel draw timeNow sid (setSocket sid freshSocket s)
  | Disconnect sid timeNow => Done (closeSocket timeNow sid s)
  | InputCommand sid cmd =>
      let so := socketOf sid s in
      match connected so, onInputCommand so with
      | true, Some playerId => onReceivedInput cmd sid playerId s
      | _, _ => Done s
      end
  | TimerFires h timeNow =>
      match timers (rt s) !! h with
      | Some (sid, _) => Done (onPlayerTimeout timeNow sid (clearTimeout h s))
      | None => Done s
      end
  | IntervalFires timeNow => Done (tick timeNow s)
  end.

(** The events are handled one after the other; an exception that leaves
    a handler, or a handler that does not return, ends the run. *)
Fixpoint run (fuel : nat) (es : list Event) (s : State) : Outcome :=
  match es with
  | [] => Done s
  | e :: es' =>
      match handle fuel e s with
      | Done s' => run fuel es' s'
      | o => o
      end
  end.

(** **** Reading a run *)

(** The player ids the log reports as joined, oldest first. *)
Definition joinedIds (ls : list LogLine) : list Z :=
  omap (fun l => match l with
                 | LogJoined ev => Some (ev_playerId ev)
                 | _ => None
                 end) ls.

(** The number of connections among the events. *)
Fixpoint connections (es : list Event) : nat :=
  match es with
  | [] => 0%nat
  | Connection _ _ _ :: es' => S (connections es')
  | _ :: es' => connections es'
  end.

(** [[1; 2; ...; n]]. *)
Definition countUp (n : nat) : list Z := map Z.of_nat (seq 1 n).

(** The player ids handed out so far are 1, 2, ..., [lastPlayerID], in
    this order, each with its queue; the connected clients hold ids among
    them, no two the same one. *)
Definition numbered (s : State) : Prop :=
  0 <= lastPlayerID (srv s)
  /\ joinedIds (logged (rt s)) = countUp (Z.to_nat (lastPlayerID (srv s)))
  /\ map fst (playerInputQueues (srv s)) = countUp (Z.to_nat (lastPlayerID (srv s)))
  /\ (forall sid c, connectedPlayers (srv s) !! sid = Some c ->
        1 <= playerId c <= lastPlayerID (srv s))
  /\ (forall sid1 sid2 c1 c2,
        connectedPlayers (srv s) !! sid1 = Some c1 ->
        connectedPlayers (srv s) !! sid2 = Some c2 ->
        playerId c1 = playerId c2 -> sid1 = sid2).

(** From [s] to [s'] no player id was handed out and no client was added. *)
Definition noNewId (s s' : State) : Prop :=
  lastPlayerID (srv s') = lastPlayerID (srv s)
  /\ joinedIds (logged (rt s')) = joinedIds (logged (rt s))
  /\ map fst (playerInputQueues (srv s')) = map fst (playerInputQueues (srv s))
  /\ connectedPlayers (srv s') ⊆ connectedPlayers (srv s).

End ServerModel.

(** ** Sample data *)

(** A [TileData] table in which water (3) blocks and the other tiles
    (0 grass, 1 sand, 2 stone) do not. *)
Definition sampleTileData (tile : Z) : option Z :=
  if bool_decide (tile = 3) then Some 1
  else if bool_decide (0 <= tile < 3) then Some 0
  else None.

(** A 2 x 2 world of grass with a tree at (0, 1). *)
Definition meadow : World unit :=
  mkWorld 2 2 [[Some 0; Some 0]; [Some 0; Some 0]]
    (Some [[None; Some 0]; [None; None]]) [] 0.

(** A 1 x 1 world whose only tile is water. *)
Definition pond : World unit :=
  mkWorld 1 1 [[Some 3]] (Some [[None]]) [] 0.

(** A command that paints the tile at (0, 0). *)
Definition paint (tileId : Z) (w : World unit) : World unit :=
  match changeTile w 0 0 (Some tileId) with
  | Ok (w', _) => w'
  | Throw _ => w
  end.

(** The tiles as nested arrays of numbers, holes as [null]. *)
Definition jsonOfRows (rows : list Row) : Json :=
  JArray (map (fun row : Row =>
                 JArray (map (fun c => match c with
                                       | Some tile => JNumber tile
                                       | None => JNull
                                       end) row)) rows).

(** A game whose characters carry no data and whose commands all paint the
    tile at (0, 0) with their parameter; its world keeps the players in
    [objects], serializes the tile map as it is, and has neither trees nor
    chests nor weather to report. *)
Definition sampleGame : Game unit Z :=
  mkGame unit Z sampleTileData (fun _ _ _ => tt) (fun c => c)
    (fun _ => paint) (fun _ => paint) (fun _ => paint) (fun _ => paint)
    objects
    (fun w _ _ playerId =>
       mkWorld (width w) (height w) (tileMap w) (objectMap w)
         (Map_set playerId tt (objects w)) (stepCount w))
    (fun w playerId =>
       mkWorld (width w) (height w) (tileMap w) (objectMap w)
         (Map_delete playerId (objects w)) (stepCount w))
    (fun w => jsonOfRows (tileMap w))
    (fun _ => JArray []) (fun _ => JArray []) (fun _ => JNull).

Definition sampleConfig : ServerConfig := mkServerConfig None None None.

(** A configuration that asks for an idle timeout of zero. *)
Definition zeroTimeoutConfig : ServerConfig := mkServerConfig None None (Some 0).

(** Every draw of the spawn search gives (0, 0). *)
Definition origin : nat -> Z * Z := fun _ => (0, 0).

(** The sample server on the meadow after socket "a" has connected. *)
Definition oneClient : State :=
  stateOf (run (Game0 := sampleGame) 1 [Connection "a" 5 origin]
             (newState sampleConfig meadow 0)).

(** The same server after socket "b" has connected as well: the first
    coordinate drawn for it, (0, 1), holds a tree, the second is (1, 1). *)
Definition twoClients : State :=
  stateOf (run (Game0 := sampleGame) 2
             [Connection "b" 9 (fun i => match i with O => (0, 1) | _ => (1, 1) end)]
             oneClient).

(** The started server configured with an idle timeout of 2147484
    seconds, the first value whose milliseconds exceed 2^31 - 1. *)
Definition longTimeout : State :=
  newState (mkServerConfig None None (Some 2147484)) meadow 0.

(** ** Generating a world ([src/app/game/world.js]) *)

(** [arr[i][j]] on an array of arrays with holes. *)
Definition js_get2 {A : Type} (arr : list (list (option A))) (i j : Z)
  : result (option A) :=
  match js_get arr i with
  | None => Throw TypeError
  | Some row => Ok (mjoin (js_get row j))
  end.

(** [arr[i][j] = v]: writing into a row that does not exist throws. *)
Definition js_put2 {A : Type} (arr : list (list (option A))) (i j : Z) (v : A)
  : result (list (list (option A))) :=
  match js_get arr i with
  | None => Throw TypeError
  | Some row => Ok (<[Z.to_nat i := js_put row j v]> arr)
  end.

(** The iterations of a counted loop, in order, until one throws. *)
Fixpoint forEachIndex {St : Type} (idx : list nat) (body : Z -> St -> result St) (s : St)
  : result St :=
  match idx with
  | [] => Ok s
  | i :: rest =>
      match body (Z.of_nat i) s with
      | Throw e => Throw e
      | Ok s' => forEachIndex rest body s'
      end
  end.

(** [for (let i = 0; i < n; i++) body]. *)
Definition forUpTo {St : Type} (n : Z) (body : Z -> St -> result St) (s : St) : result St :=
  forEachIndex (seq 0 (Z.to_nat n)) body s.

(** What the body of a doubly nested loop does to cell [(i, j)] of the
    array it fills: nothing, the assignment [arr[i][j] = v], or a read of
    [undefined[j]] that throws. *)
Inductive CellAction (A : Type) : Type :=
| Leave
| Put (v : A)
| Fail.

Arguments Leave {A}.
Arguments Put {A} v.
Arguments Fail {A}.

(** [for (i = 0; i < rowsN; i++) for (j = 0; j < colsN; j++) { ... }]. *)
Definition fill {A : Type} (rowsN colsN : Z) (act : Z -> Z -> CellAction A)
    (arr : list (list (option A))) : result (list (list (option A))) :=
  forUpTo rowsN
    (fun i a =>
       forUpTo colsN
         (fun j a' =>
            match act i j with
            | Leave => Ok a'
            | Put v => js_put2 a' i j v
            | Fail => Throw TypeError
            end) a) arr.

(** What reading [(x, y)] gives once [fill] has run over [arr]. *)
Definition filled {A : Type} (rowsN colsN : Z) (act : Z -> Z -> CellAction A)
    (arr : list (list (option A))) (x y : Z) : result (option A) :=
  if bool_decide (0 <= x < rowsN /\ 0 <= y < colsN) then
    match act x y with
    | Put v => Ok (Some v)
    | _ => js_get2 arr x y
    end
  else js_get2 arr x y.

(** The double nearest to a decimal literal, as the rational it is. *)
Definition binary64 (m : Z) (e : positive) : Q := Qmake m (2 ^ e).

Definition lit_0_1 : Q := binary64 3602879701896397 55.
Definition lit_0_12 : Q := binary64 1080863910568919 53.
Definition lit_0_16 : Q := binary64 5764607523034235 55.
Definition lit_0_3 : Q := binary64 5404319552844595 54.
Definition lit_0_33 : Q := binary64 5944751508129055 54.
Definition lit_0_4 : Q := binary64 3602879701896397 53.
Definition lit_0_5 : Q := binary64 1 1.
Definition lit_0_55 : Q := binary64 2476979795053773 52.
Definition lit_0_6 : Q := binary64 5404319552844595 53.
Definition lit_0_66 : Q := binary64 5944751508129055 53.
Definition lit_0_7 : Q := binary64 3152519739159347 52.
Definition lit_0_8 : Q := binary64 3602879701896397 52.

(** [a < b] for a number or [undefined] against a literal: [undefined]
    compares as [NaN], which is below nothing. *)
Definition js_lt (a : option Q) (b : Q) : bool :=
  match a with
  | Some x => negb (Qle_bool b x)
  | None => false
  end.

(** [a > b], likewise. *)
Definition js_gt (a : option Q) (b : Q) : bool :=
  match a with
  | Some x => negb (Qle_bool x b)
  | None => false
  end.

(** [getBiomeType(e, m)]: 3 water, 1 sand, 0 grass, 2 stone. *)
Definition getBiomeType (e m : option Q) : Z :=
  if js_lt e lit_0_4 then 3
  else if js_lt e lit_0_55 then 1
  else if js_lt e lit_0_7 then 0
  else 2.

(** [getBiomeTypeBetter(e, m)]; [None] is the [undefined] of a call that
    reaches the end of the function without a [return]. *)
Definition getBiomeTypeBetter (e m : option Q) : option Z :=
  if js_lt e lit_0_1 then Some 3
  else if js_lt e lit_0_12 then Some 1
  else if js_gt e lit_0_8 then
    (if js_lt m lit_0_5 then Some 2 else Some 2)
  else if js_gt e lit_0_6 then
    (if js_lt m lit_0_33 then Some 1
     else if js_lt m lit_0_66 then Some 0
     else Some 2)
  else
    match (if js_gt e lit_0_3 then
             (if js_lt m lit_0_16 then Some 1
              else if js_lt m lit_0_5 then Some 0
              else None)
           else None) with
    | Some tile => Some tile
    | None =>
        if js_lt m lit_0_16 then Some 1
        else if js_lt m lit_0_33 then Some 0
        else None
    end.

(** What the generation draws: the value [generateNoise] stores at
    [(i, j)] of the height map and of the moisture map (Perlin noise,
    rescaled), and whether [Math.random() < 0.2] holds for the draw made
    at a grass tile [(i, j)]. *)
Record Terrain : Type := mkTerrain {
  elevation : Z -> Z -> Q;
  wetness : Z -> Z -> Q;
  plant : Z -> Z -> bool
}.

(** [generateNoise(arr, width, height)]; [sample i j] is the value that
    ends up in [arr[i][j]]. *)
Definition generateNoise (sample : Z -> Z -> Q) (arr : list (list (option Q)))
    (width height : Z) : result (list (list (option Q))) :=
  fill width height (fun i j => Put (sample i j)) arr.

(** [generateTileMap(tilemap, heightmap, moisture)]: both loops run to
    [tilemap.length]. *)
Definition generateTileMap (tilemap : list Row) (heightmap moisture : list (list (option Q)))
  : result (list Row) :=
  let n := Z.of_nat (length tilemap) in
  fill n n
    (fun i j =>
       match js_get heightmap i with
       | None => Fail
       | Some hrow =>
           match js_get moisture i with
           | None => Fail
           | Some mrow =>
               Put (getBiomeType (mjoin (js_get hrow j)) (mjoin (js_get mrow j)))
           end
       end) tilemap.

(** [generateTrees(tilemap, objectMap)]: a tree (object type 0) on the
    grass tiles for which the draw says so. *)
Definition generateTrees (plant : Z -> Z -> bool) (tilemap objectMap : list Row)
  : result (list Row) :=
  let n := Z.of_nat (length tilemap) in
  fill n n
    (fun i j =>
       match js_get tilemap i with
       | None => Fail
       | Some row =>
           if bool_decide (mjoin (js_get row j) = Some 0) then
             if plant i j then Put 0 else Leave
           else Leave
       end) objectMap.

(** [arr = []; for (i < height) arr[i] = []]. *)
Definition emptyRows {A : Type} (height : Z) : list (list (option A)) :=
  replicate (Z.to_nat height) [].

Definition bindResult {A B : Type} (r : result A) (k : A -> result B) : result B :=
  match r with
  | Ok a => k a
  | Throw e => Throw e
  end.

(** [initTilemap()]: the tile map it leaves in [this.tileMap]. *)
Definition initTilemap (g : Terrain) (width height : Z) : result (list Row) :=
  bindResult (generateNoise (elevation g) (emptyRows height) width height) (fun heightmap =>
  bindResult (generateNoise (wetness g) (emptyRows height) width height) (fun moisture =>
  generateTileMap (emptyRows height) heightmap moisture)).

(** [initObjectMap()]: the object map it leaves in [this.objectMap]. *)
Definition initObjectMap (g : Terrain) (height : Z) (tileMap : list Row)
  : result (list Row) :=
  generateTrees (plant g) tileMap (emptyRows height).

(** What [initWorldData] leaves behind: the maps, its return value, and the
    tile map given to [saveWorldDataToDisk], if any. *)
Record WorldData : Type := mkWorldData {
  data_tileMap : list Row;
  data_objectMap : option (list Row);
  data_success : bool;
  data_saved : option (list Row)
}.

(** [initWorldData(filename)]. [filename] is [None] when it is not a
    string; [disk name] is what [loadFromDiskData(name)] returns, [None]
    for [null] (the file could not be read or parsed). *)
Definition initWorldData (g : Terrain) (disk : string -> option (list Row))
    (width height : Z) (filename : option string) : result WorldData :=
  match filename ≫= disk with
  | Some tiles => Ok (mkWorldData tiles None true None)
  | None =>
      bindResult (initTilemap g width height) (fun tiles =>
      bindResult (initObjectMap g height tiles) (fun trees =>
      Ok (mkWorldData tiles (Some trees) false (Some tiles))))
  end.

(** [new World(server, filename)] with [WorldConfig.WIDTH] and
    [WorldConfig.HEIGHT]. *)
Definition newWorld {Character : Type} (g : Terrain) (disk : string -> option (list Row))
    (width height : Z) (filename : option string) : result (World Character) :=
  bindResult (initWorldData g disk width height filename) (fun data =>
  Ok (mkWorld width height (data_tileMap data) (data_objectMap data) [] 0)).

(** A terrain of dry grass with a tree wherever it may stand. *)
Definition lawn : Terrain := mkTerrain (fun _ _ => 0.6%Q) (fun _ _ => 0%Q) (fun _ _ => true).

(** What reading [(x, y)] gives while [fill] is in row [i], about to visit
    column [k]. *)
Definition partlyFilled {A : Type} (i k colsN : Z) (act : Z -> Z -> CellAction A)
    (arr : list (list (option A))) (x y : Z) : result (option A) :=
  if bool_decide ((0 <= x < i /\ 0 <= y < colsN) \/ (x = i /\ 0 <= y < k)) then
    match act x y with
    | Put v => Ok (Some v)
    | _ => js_get2 arr x y
    end
  else js_get2 arr x y.

(** Visiting cell [(i, j)] of [arr] does not throw: nothing is read from
    a missing row, and what is written goes to a row that exists. *)
Definition cellOk {A : Type} (act : Z -> Z -> CellAction A)
    (arr : list (list (option A))) (i j : Z) : Prop :=
  match act i j with
  | Leave => True
  | Put _ => 0 <= i < Z.of_nat (length arr)
  | Fail => False
  end.

(** The tile a generated world has at [(x, y)]: outside the columns the
    noise was generated for, the elevation read is [undefined]. *)
Definition freshTile (g : Terrain) (width x y : Z) : Z :=
  if bool_decide (x < width)
  then getBiomeType (Some (elevation g x y)) (Some (wetness g x y))
  else getBiomeType None None.

(** Whether a generated world has a tree at [(x, y)]. *)
Definition freshTree (g : Terrain) (width x y : Z) : bool :=
  bool_decide (freshTile g width x y = 0) && plant g x y.

(** [tilemap[x][y] === 0], false where the row is missing. *)
Definition isGrassAt (tilemap : list Row) (x y : Z) : bool :=
  match js_get2 tilemap x y with
  | Ok (Some tile) => bool_decide (tile = 0)
  | _ => false
  end.

(** ** Reading the server's state *)

Section ServerReadings.

Context {Character Params : Type} `{!Game Character Params}.

(** The command [onReceivedInput] builds for a recognized type. *)
Definition makeCommand (kind : CommandKind) (player : option Character) (p : Params)
  : Command :=
  match kind with
  | Movement => makeMoveCommand player p
  | AlterTile => makeChangeTileCommand player p
  | Communication => makeCommunicateCommand player p
  | Interaction => makeInteractCommand player p
  end.



(** The buffers of the ['update'] messages among the messages sent, oldest
    first. *)
Definition updates (ms : list (Message (Character := Character)))
  : list (list Payload) :=
  omap (fun m => match m with
                 | EmitUpdate buffer => Some buffer
                 | _ => None
                 end) ms.

(** Nothing is waiting in [outgoingBuffer], and update number [k] (from 0)
    carried exactly one payload, stamped with tick [k]. *)
Definition flushed (s : State (Character := Character)) : Prop :=
  outgoingBuffer (srv s) = []
  /\ Forall (fun buffer => exists payload,
                buffer = [payload] /\ 0 <= t payload < gameTick (srv s))
       (updates (sent (rt s))).

(** From [s] to [s'] the interval did not fire: same tick, same buffer, no
    ['update'] sent. *)
Definition noTick (s s' : State (Character := Character)) : Prop :=
  gameTick (srv s') = gameTick (srv s)
  /\ outgoingBuffer (srv s') = outgoingBuffer (srv s)
  /\ updates (sent (rt s')) = updates (sent (rt s)).

(** The number of times the interval fired among the events. *)
Fixpoint intervals (es : list (Event (Params := Params))) : nat :=
  match es with
  | [] => 0%nat
  | IntervalFires _ :: es' => S (intervals es')
  | _ :: es' => intervals es'
  end.

End ServerReadings.

(** ** The earlier world class (the second [World] of the sources) *)

Module LegacyWorld.

(** [World.MAP_WIDTH] and [World.MAP_HEIGHT]. *)
Definition MAP_WIDTH : Z := 16.
Definition MAP_HEIGHT : Z := 16.

(** An entry of [objects]: [{id, x, y}]. *)
Record Object : Type := mkObject {
  id : Z;
  x : Z;
  y : Z
}.

Record World : Type := mkWorld {
  objects : list (Z * Object);
  stepCount : Z;
  tileMap : list Row;
  heightmap : list (list (option Q))
}.

(** [getBiomeType(elevation, moisture)]: 0 grass below 0.5, else 1 sand. *)
Definition getBiomeType (elevation moisture : option Q) : Z :=
  if js_lt elevation lit_0_5 then 0 else 1.

(** [generateNoise(arr, width, height)]; [sample i j] is the value of
    [Math.random() * 2 - 1] drawn for [arr[i][j]]. *)
Definition generateNoise (sample : Z -> Z -> Q) (arr : list (list (option Q)))
    (width height : Z) : result (list (list (option Q))) :=
  fill width height (fun i j => Put (sample i j)) arr.

(** [generateTileMap(tilemap, heightmap)]. *)
Definition generateTileMap (tilemap : list Row) (heightmap : list (list (option Q)))
  : result (list Row) :=
  let n := Z.of_nat (length tilemap) in
  fill n n
    (fun i j =>
       match js_get heightmap i with
       | None => Fail
       | Some hrow => Put (getBiomeType (mjoin (js_get hrow j)) (Some 0%Q))
       end) tilemap.

(** [new World()]. *)
Definition newWorld (sample : Z -> Z -> Q) : result World :=
  bindResult (generateNoise sample (emptyRows MAP_HEIGHT) MAP_WIDTH MAP_HEIGHT)
    (fun heightmap =>
  bindResult (generateTileMap (emptyRows MAP_HEIGHT) heightmap) (fun tileMap =>
  Ok (mkWorld [] 0 tileMap heightmap))).

(** [addObject(playerId)]. *)
Definition addObject (w : World) (playerId : Z) : World :=
  mkWorld (Map_set playerId (mkObject playerId 50 50) (objects w)) (stepCount w)
    (tileMap w) (heightmap w).

(** [removeObject(playerId)]: the world afterwards and what
    [Map.prototype.delete] returns. *)
Definition removeObject (w : World) (playerId : Z) : World * bool :=
  (mkWorld (Map_delete playerId (objects w)) (stepCount w) (tileMap w) (heightmap w),
   bool_decide (is_Some (Map_get playerId (objects w)))).

End LegacyWorld.

(** The idle timeout is switched off and no callback is pending. *)
Definition disarmed {Character : Type} (s : State (Character := Character)) : Prop :=
  timeoutInterval (srv s) <= 0 /\ timers (rt s) = ∅.

(** * Properties *)

(** ** Arrays *)

Lemma js_get_negative {A : Type} (arr : list A) (i : Z) :
  i < 0 -> js_get arr i = None.
Proof.
  intros Hi. unfold js_get. rewrite bool_decide_eq_true_2; [reflexivity | lia].
Qed.

Lemma js_get_past_end {A : Type} (arr : list A) (i : Z) :
  Z.of_nat (length arr) <= i -> js_get arr i = None.
Proof.
  intros Hi. unfold js_get. case_bool_decide; [reflexivity |].
  apply lookup_ge_None. lia.
Qed.

Lemma js_get_in_range {A : Type} (arr : list A) (i : Z) :
  0 <= i < Z.of_nat (length arr) -> exists a, js_get arr i = Some a.
Proof.
  intros Hi. unfold js_get. rewrite bool_decide_eq_false_2 by lia.
  destruct (lookup_lt_is_Some_2 arr (Z.to_nat i)) as [a Ha]; [lia |].
  exists a. exact Ha.
Qed.

Lemma js_get_put_same {A : Type} (row : list (option A)) (i : Z) (v : A) :
  0 <= i -> js_get (js_put row i v) i = Some (Some v).
Proof.
  intros Hi. unfold js_get, js_put.
  rewrite bool_decide_eq_false_2 by lia.
  case_bool_decide as Hlen.
  - apply list_lookup_insert_eq. exact Hlen.
  - rewrite lookup_app_r by lia.
    rewrite lookup_app_r; rewrite length_replicate; [| lia].
    replace (Z.to_nat i - length row - (Z.to_nat i - length row))%nat with 0%nat by lia.
    reflexivity.
Qed.

(** Reading any other index of the written row gives what it gave before:
    the holes a write past the end creates read as [undefined], like the
    missing indices they replace. *)
Lemma js_get_put_other {A : Type} (row : list (option A)) (i j : Z) (v : A) :
  0 <= i -> i <> j -> mjoin (js_get (js_put row i v) j) = mjoin (js_get row j).
Proof.
  intros Hi Hij. unfold js_get, js_put.
  case_bool_decide as Hj; [reflexivity |].
  assert (Hne : Z.to_nat i <> Z.to_nat j) by lia.
  case_bool_decide as Hlen.
  - rewrite list_lookup_insert_ne by exact Hne. reflexivity.
  - destruct (decide (Z.to_nat j < length row)%nat) as [Hjl | Hjl].
    + rewrite lookup_app_l by exact Hjl. reflexivity.
    + rewrite lookup_app_r by lia.
      rewrite (lookup_ge_None_2 row) by lia.
      destruct (decide (Z.to_nat j - length row < Z.to_nat i - length row)%nat)
        as [Hlt | Hge].
      * rewrite lookup_app_l by (rewrite length_replicate; exact Hlt).
        rewrite lookup_replicate_2 by exact Hlt. reflexivity.
      * rewrite lookup_app_r by (rewrite length_replicate; lia).
        rewrite length_replicate.
        rewrite lookup_ge_None_2; [reflexivity |]. simpl. lia.
Qed.

(** ** The world *)

Section WorldProperties.

Context {Character : Type}.
Variable TileData : Z -> option Z.
Implicit Types (w : World Character) (x y d : Z).

Lemma isValidTile_true w x y :
  isValidTile w x y = true <-> 0 <= x < width w /\ 0 <= y < height w.
Proof.
  unfold isValidTile. rewrite !andb_true_iff, !bool_decide_eq_true. lia.
Qed.

Lemma cell_off_the_rows (m : list Row) x y :
  x < 0 \/ Z.of_nat (length m) <= x -> cell m x y = Throw TypeError.
Proof.
  intros [Hx | Hx]; unfold cell.
  - rewrite js_get_negative by exact Hx. reflexivity.
  - rewrite js_get_past_end by exact Hx. reflexivity.
Qed.

(** C1, where the code departs from it: a column index that is not a row
    of the tile map makes [isPassable] throw a [TypeError], whatever the
    direction; no bounds check precedes [this.tileMap[x][y]]. *)
Theorem isPassable_throws_off_the_rows w x y d :
  x < 0 \/ Z.of_nat (length (tileMap w)) <= x ->
  isPassable TileData w x y d = Throw TypeError.
Proof.
  intros Hx. unfold isPassable, checkPassage.
  rewrite cell_off_the_rows by exact Hx. reflexivity.
Qed.

(** Out of bounds in [y] only, on rows no longer than the world is high,
    the answer is [false] as the specification wants. *)
Lemma isPassable_false_off_the_columns w x y d row :
  js_get (tileMap w) x = Some row ->
  y < 0 \/ Z.of_nat (length row) <= y ->
  isPassable TileData w x y d = Ok false.
Proof.
  intros Hrow Hy. unfold isPassable, checkPassage, cell. rewrite Hrow.
  destruct Hy as [Hy | Hy].
  - rewrite js_get_negative by exact Hy. reflexivity.
  - rewrite js_get_past_end by exact Hy. reflexivity.
Qed.

(** C10: the direction does not influence [isPassable]; the result is
    fixed by the tile read at (x, y) and by what [checkObject] finds
    there, also across worlds and coordinates. *)
Theorem isPassable_ignores_direction w x y d1 d2 :
  isPassable TileData w x y d1 = isPassable TileData w x y d2
  /\ forall (w' : World Character) x' y',
       cell (tileMap w') x' y' = cell (tileMap w) x y ->
       checkObject w' x' y' (directionBit d2) = checkObject w x y (directionBit d1) ->
       isPassable TileData w' x' y' d2 = isPassable TileData w x y d1.
Proof.
  split; [reflexivity |].
  intros w' x' y' Htile Hobj. unfold isPassable, checkPassage.
  rewrite Htile, Hobj. reflexivity.
Qed.

(** On a cell that both maps hold, [isPassable] is the conjunction the
    specification describes. *)
Lemma isPassable_on_a_cell w x y d (om : list Row) (tile obj : option Z) :
  cell (tileMap w) x y = Ok tile ->
  objectMap w = Some om ->
  cell om x y = Ok obj ->
  isPassable TileData w x y d = Ok (tilePasses TileData tile && negb (occupied obj)).
Proof.
  intros Htile Hom Hobj. unfold isPassable, checkPassage, checkObject.
  rewrite Htile, Hom, Hobj. destruct (tilePasses TileData tile); reflexivity.
Qed.



End WorldProperties.

Lemma isPassable_throws_off_the_rows_witness :
  isPassable sampleTileData meadow (-1) 0 2 = Throw TypeError
  /\ isPassable sampleTileData meadow (width meadow) 0 2 = Throw TypeError.
Proof.
  split.
  - apply (isPassable_throws_off_the_rows sampleTileData meadow (-1) 0 2).
    left. lia.
  - apply (isPassable_throws_off_the_rows sampleTileData meadow (width meadow) 0 2).
    right. simpl. lia.
Defined.


(** ** Trees *)

Lemma interact_durability (rolls : list Z) : forall t : Tree,
  durability (interact t rolls).1 = durability t - Z.of_nat (length rolls).
Proof.
  induction rolls as [| roll rolls IH]; intros t; simpl.
  - lia.
  - unfold onInteraction. case_bool_decide; simpl;
      destruct (interact _ rolls) as [t2 gs] eqn:E; simpl;
      change t2 with (t2, gs).1; rewrite <- E, IH; simpl; lia.
Qed.

Lemma interact_length (rolls : list Z) : forall t : Tree,
  length (interact t rolls).2 = length rolls.
Proof.
  induction rolls as [| roll rolls IH]; intros t; simpl; [reflexivity |].
  destruct (onInteraction t roll) as [t1 g].
  specialize (IH t1). destruct (interact t1 rolls) as [t2 gs]. simpl in *. lia.
Qed.

(** Call number [k + 1] grants exactly when the durability the tree started
    with is at most [k + 1]. *)
Lemma interact_call (rolls : list Z) : forall (t : Tree) (k : nat) (roll : Z),
  rolls !! k = Some roll ->
  (interact t rolls).2 !! k
  = Some (if bool_decide (durability t <= Z.of_nat k + 1)
          then Some (mkGainItem (loot t) roll) else None).
Proof.
  induction rolls as [| r rolls IH]; intros t k roll Hk; [discriminate |].
  simpl. destruct (onInteraction t r) as [t1 g] eqn:E1.
  specialize (IH t1). destruct (interact t1 rolls) as [t2 gs]. simpl in IH.
  unfold onInteraction in E1.
  destruct k as [| k]; simpl in *.
  - injection Hk as ->.
    repeat case_bool_decide; simpl in *; try lia; injection E1 as <- <-; reflexivity.
  - rewrite (IH k roll Hk).
    assert (durability t1 = durability t - 1 /\ loot t1 = loot t) as [Hd Hl].
    { case_bool_decide; injection E1 as <- <-; simpl; auto. }
    rewrite Hl. repeat case_bool_decide; try lia; reflexivity.
Qed.

Lemma grants_cons (g : option GainItem) (gs : list (option GainItem)) :
  grants (g :: gs) = ((match g with Some _ => 1 | None => 0 end) + grants gs)%nat.
Proof. destruct g; reflexivity. Qed.

(** How many of [n] successive calls grant: none until the durability is
    used up, then every one. *)
Lemma grants_interact (rolls : list Z) : forall t : Tree,
  Z.of_nat (grants (interact t rolls).2)
  = Z.max 0 (Z.of_nat (length rolls) - Z.max (durability t) 1 + 1).
Proof.
  induction rolls as [| r rolls IH]; intros t.
  - replace (grants (interact t []).2) with 0%nat by reflexivity. simpl. lia.
  - simpl. destruct (onInteraction t r) as [t1 g] eqn:E1.
    specialize (IH t1). destruct (interact t1 rolls) as [t2 gs] eqn:E2.
    simpl in IH. simpl. rewrite grants_cons, Nat2Z.inj_add, IH.
    unfold onInteraction in E1. simpl in E1.
    case_bool_decide as Hz; injection E1 as <- <-; simpl; lia.
Qed.

(** C2, as the code has it: of successive interactions with a tree that
    starts with durability [d] in [1, 4], the first [d - 1] grant nothing
    and the [d]-th grants the tree's loot, so exactly [d] interactions grant
    exactly once, on the last; [onInteraction] has no guard of its own
    against later calls, and each call after the [d]-th grants again. *)
Theorem onInteraction_grants_from_the_dth_call (x y d : Z) (rolls : list Z) :
  1 <= d <= 4 ->
  (forall (k : nat) (roll : Z),
      rolls !! k = Some roll ->
      (interact (newTree x y d) rolls).2 !! k
      = Some (if bool_decide (d <= Z.of_nat k + 1)
              then Some (mkGainItem Tiles_STONE roll) else None))
  /\ (Z.of_nat (length rolls) = d -> grants (interact (newTree x y d) rolls).2 = 1%nat)
  /\ Z.of_nat (grants (interact (newTree x y d) rolls).2)
     = Z.max 0 (Z.of_nat (length rolls) - d + 1)
  /\ durability (interact (newTree x y d) rolls).1 = d - Z.of_nat (length rolls).
Proof.
  intros Hd.
  pose proof (grants_interact rolls (newTree x y d)) as Hg. simpl in Hg.
  split; [| split; [| split]].
  - intros k roll Hk. apply (interact_call rolls (newTree x y d) k roll Hk).
  - intros Hlen. lia.
  - lia.
  - apply (interact_durability rolls (newTree x y d)).
Qed.

Lemma onInteraction_grants_from_the_dth_call_witness :
  (forall (k : nat) (roll : Z),
      [1; 2; 1] !! k = Some roll ->
      (interact (newTree 0 0 2) [1; 2; 1]).2 !! k
      = Some (if bool_decide (2 <= Z.of_nat k + 1)
              then Some (mkGainItem Tiles_STONE roll) else None))
  /\ (Z.of_nat (length [1; 2; 1]) = 2 -> grants (interact (newTree 0 0 2) [1; 2; 1]).2 = 1%nat)
  /\ Z.of_nat (grants (interact (newTree 0 0 2) [1; 2; 1]).2)
     = Z.max 0 (Z.of_nat (length [1; 2; 1]) - 2 + 1)
  /\ durability (interact (newTree 0 0 2) [1; 2; 1]).1 = 2 - Z.of_nat (length [1; 2; 1]).
Proof.
  apply (onInteraction_grants_from_the_dth_call 0 0 2 [1; 2; 1]). lia.
Defined.

(** C2 as stated fails: a tree of durability 1 grants on the first
    interaction and again on the second. *)
Lemma onInteraction_grants_twice :
  (interact (newTree 0 0 1) [1; 2]).2
  = [Some (mkGainItem Tiles_STONE 1); Some (mkGainItem Tiles_STONE 2)]
  /\ grants (interact (newTree 0 0 1) [1; 2]).2 = 2%nat.
Proof. split; reflexivity. Qed.

(** ** Draining the input queues *)

Section QueueProperties.

Context {Character Params : Type} `{!Game Character Params}.
Implicit Types (w : World Character) (sv : Server (Character := Character)).
Local Abbreviation Cmd := (Command (Character := Character)).

Lemma Map_get_set_same {V : Type} (k : Z) (v : V) (m : list (Z * V)) :
  Map_get k (Map_set k v m) = Some v.
Proof.
  induction m as [| [k' v'] m IH]; simpl.
  - rewrite bool_decide_eq_true_2; reflexivity.
  - case_bool_decide as Hk; simpl.
    + rewrite bool_decide_eq_true_2; reflexivity.
    + rewrite bool_decide_eq_false_2 by exact Hk. exact IH.
Qed.

Lemma Map_get_set_other {V : Type} (k k0 : Z) (v : V) (m : list (Z * V)) :
  k0 <> k -> Map_get k0 (Map_set k v m) = Map_get k0 m.
Proof.
  intros Hne. induction m as [| [k' v'] m IH]; simpl.
  - rewrite bool_decide_eq_false_2; [reflexivity | exact Hne].
  - case_bool_decide as Hk; simpl.
    + subst k'. rewrite !bool_decide_eq_false_2 by exact Hne. reflexivity.
    + rewrite IH. reflexivity.
Qed.

(** Writing under a key the Map holds keeps every key in its place. *)
Lemma Map_set_keys_present {V : Type} (k : Z) (v : V) (m : list (Z * V)) :
  is_Some (Map_get k m) -> map fst (Map_set k v m) = map fst m.
Proof.
  induction m as [| [k' v'] m IH]; simpl; intros [v0 Hv0]; [discriminate |].
  case_bool_decide as Hk; simpl.
  - subst k'. reflexivity.
  - rewrite IH; [reflexivity | exists v0; exact Hv0].
Qed.

(** Writing under a new key appends it. *)
Lemma Map_set_keys_absent {V : Type} (k : Z) (v : V) (m : list (Z * V)) :
  Map_get k m = None -> map fst (Map_set k v m) = map fst m ++ [k].
Proof.
  induction m as [| [k' v'] m IH]; simpl; intros Hnone; [reflexivity |].
  case_bool_decide as Hk; [discriminate |]. simpl. rewrite IH by exact Hnone.
  reflexivity.
Qed.

Lemma Map_get_None_keys {V : Type} (k : Z) (m : list (Z * V)) :
  Map_get k m = None <-> ~ In k (map fst m).
Proof.
  induction m as [| [k' v'] m IH]; simpl; [tauto |].
  case_bool_decide as Hk.
  - split; [discriminate | intros Hn; exfalso; apply Hn; left; congruence].
  - rewrite IH. split; [intros Hn [Heq | Hin]; [congruence | tauto] | tauto].
Qed.

Lemma drain_spec (queues : list (Z * list Cmd)) : forall w,
  drain queues w
  = (emptied queues,
     fold_left (fun w0 cmd => processInput cmd w0) (concat (map snd queues)) w).
Proof.
  induction queues as [| [playerId commands] queues IH]; intros w; simpl.
  - reflexivity.
  - rewrite IH. rewrite fold_left_app. reflexivity.
Qed.

Lemma emptied_commands (queues : list (Z * list Cmd)) :
  concat (map snd (emptied queues)) = [].
Proof.
  induction queues as [| q queues IH]; simpl; [reflexivity | exact IH].
Qed.

Lemma emptied_idempotent (queues : list (Z * list Cmd)) :
  emptied (emptied queues) = emptied queues.
Proof.
  induction queues as [| q queues IH]; simpl; [reflexivity |]. rewrite IH.
  reflexivity.
Qed.

Lemma emptied_get (queues : list (Z * list Cmd)) (playerId : Z) :
  Map_get playerId (emptied queues) = (fun _ => []) <$> Map_get playerId queues.
Proof.
  induction queues as [| [k q] queues IH]; simpl; [reflexivity |].
  case_bool_decide; [reflexivity | exact IH].
Qed.

Lemma emptied_keys (queues : list (Z * list Cmd)) :
  map fst (emptied queues) = map fst queues.
Proof.
  induction queues as [| q queues IH]; simpl; [reflexivity |]. rewrite IH.
  reflexivity.
Qed.

Lemma step_unfold dt sv :
  step dt sv
  = set_world
      (World_step dt
         (fold_left (fun w0 cmd => processInput cmd w0)
            (concat (map snd (playerInputQueues sv)))
            (setStepCount (stepCount (world sv) + 1) (world sv))))
      (set_playerInputQueues (emptied (playerInputQueues sv)) sv).
Proof. unfold step. rewrite drain_spec. reflexivity. Qed.

(** C3: one [step] calls the pending commands of every queue, each queue
    in array (enqueue) order and the queues in the Map's order, on the
    world whose step count was advanced, then steps the world; it leaves
    every queue empty under its key, so a second [step] with nothing
    enqueued in between calls no command at all. *)
Theorem step_drains_the_queues dt sv :
  world (step dt sv)
  = World_step dt
      (fold_left (fun w0 cmd => cmd w0)
         (concat (map snd (playerInputQueues sv)))
         (setStepCount (stepCount (world sv) + 1) (world sv)))
  /\ (forall playerId commands,
        Map_get playerId (playerInputQueues sv) = Some commands ->
        Map_get playerId (playerInputQueues (step dt sv)) = Some [])
  /\ map fst (playerInputQueues (step dt sv)) = map fst (playerInputQueues sv)
  /\ concat (map snd (playerInputQueues (step dt sv))) = []
  /\ forall dt',
       world (step dt' (step dt sv))
       = World_step dt'
           (setStepCount (stepCount (world (step dt sv)) + 1) (world (step dt sv)))
       /\ playerInputQueues (step dt' (step dt sv)) = playerInputQueues (step dt sv).
Proof.
  rewrite step_unfold. simpl.
  split; [reflexivity |].
  split; [intros playerId commands Hq; rewrite emptied_get, Hq; reflexivity |].
  split; [apply emptied_keys |].
  split; [apply emptied_commands |].
  intros dt'. rewrite step_unfold. simpl.
  rewrite emptied_commands, emptied_idempotent. split; reflexivity.
Qed.

(** [queueInputForPlayer] appends to the queue of a registered player and
    touches no other queue. *)
Lemma queueInputForPlayer_appends (cmd : Cmd) (playerId : Z)
    (s : State (Character := Character)) (queue : list Cmd) :
  Map_get playerId (playerInputQueues (srv s)) = Some queue ->
  exists s',
    queueInputForPlayer cmd playerId s = Done s'
    /\ Map_get playerId (playerInputQueues (srv s')) = Some (queue ++ [cmd])
    /\ (forall k, k <> playerId ->
          Map_get k (playerInputQueues (srv s')) = Map_get k (playerInputQueues (srv s)))
    /\ map fst (playerInputQueues (srv s')) = map fst (playerInputQueues (srv s)).
Proof.
  intros Hq. unfold queueInputForPlayer. rewrite Hq.
  eexists. split; [reflexivity |]. simpl.
  split; [apply Map_get_set_same |].
  split; [intros k Hk; apply Map_get_set_other; exact Hk |].
  apply Map_set_keys_present. exists queue. exact Hq.
Qed.

End QueueProperties.

(** Two paints queued for one player: the later one is what the tile shows
    after the step, and the queue is empty. *)
Example step_paints_in_order :
  let sv := set_playerInputQueues [(1, [paint 1; paint 2])]
              (newServer sampleConfig meadow 0) in
  cell (tileMap (world (step (Game0 := sampleGame) 16 sv))) 0 0 = Ok (Some 2)
  /\ playerInputQueues (step (Game0 := sampleGame) 16 sv) = [(1, [])].
Proof. split; reflexivity. Qed.

(** ** The idle timeout and rejected input *)

Section InputProperties.

Context {Character Params : Type} `{!Game Character Params}.
Implicit Types (s : State (Character := Character)) (sid : SocketId).

Lemma socketOf_setSocket_same sid (so : SocketObj) s :
  socketOf sid (setSocket sid so s) = so.
Proof. unfold socketOf, setSocket. simpl. rewrite lookup_insert_eq. reflexivity. Qed.

Lemma socketOf_setSocket_other sid sid' (so : SocketObj) s :
  sid' <> sid -> socketOf sid' (setSocket sid so s) = socketOf sid' s.
Proof.
  intros Hne. unfold socketOf, setSocket. simpl.
  rewrite lookup_insert_ne by congruence. reflexivity.
Qed.

(** [resetIdleTimeout] touches the socket's timer and nothing else. *)
Lemma resetIdleTimeout_frame sid s :
  srv (resetIdleTimeout sid s) = srv s
  /\ sent (rt (resetIdleTimeout sid s)) = sent (rt s)
  /\ logged (rt (resetIdleTimeout sid s)) = logged (rt s)
  /\ connected (socketOf sid (resetIdleTimeout sid s)) = connected (socketOf sid s)
  /\ onDisconnect (socketOf sid (resetIdleTimeout sid s)) = onDisconnect (socketOf sid s)
  /\ onInputCommand (socketOf sid (resetIdleTimeout sid s)) = onInputCommand (socketOf sid s)
  /\ forall sid', sid' <> sid ->
       socketOf sid' (resetIdleTimeout sid s) = socketOf sid' s.
Proof.
  unfold resetIdleTimeout.
  destruct (idleTimeout (socketOf sid s)) as [h |]; simpl;
    case_bool_decide; simpl;
    rewrite ?socketOf_setSocket_same; simpl;
    repeat split; try reflexivity;
    intros sid' Hne; rewrite ?socketOf_setSocket_other by exact Hne; reflexivity.
Qed.

(** The pending callbacks of other sockets stay pending. *)
Lemma resetIdleTimeout_other_timers sid s (h : Z) :
  idleTimeout (socketOf sid s) <> Some h -> h <> nextTimer (rt s) ->
  timers (rt (resetIdleTimeout sid s)) !! h = timers (rt s) !! h.
Proof.
  intros Hold Hnew. unfold resetIdleTimeout.
  destruct (idleTimeout (socketOf sid s)) as [h0 |]; simpl;
    case_bool_decide; simpl;
    rewrite ?lookup_insert_ne by congruence;
    rewrite ?lookup_delete_ne by congruence; reflexivity.
Qed.

(** With a [timeoutInterval] that is not positive, [resetIdleTimeout]
    leaves no callback pending that was not already pending. *)
Lemma resetIdleTimeout_disabled sid s :
  timeoutInterval (srv s) <= 0 ->
  forall h, timers (rt (resetIdleTimeout sid s)) !! h = None
            \/ timers (rt (resetIdleTimeout sid s)) !! h = timers (rt s) !! h.
Proof.
  intros Hoff h. unfold resetIdleTimeout.
  destruct (idleTimeout (socketOf sid s)) as [h0 |]; simpl;
    (rewrite bool_decide_eq_false_2 by lia); simpl.
  - destruct (decide (h0 = h)) as [-> | Hne].
    + left. apply lookup_delete_eq.
    + right. apply lookup_delete_ne. exact Hne.
  - right. reflexivity.
Qed.

(** A negative configured value reaches [timeoutInterval] as it is. *)
Lemma newServer_timeoutInterval_negative (cfg : ServerConfig)
    (w : World Character) (timeNow n : Z) :
  TIMEOUT_INTERVAL cfg = Some n -> n < 0 ->
  timeoutInterval (newServer cfg w timeNow) = n.
Proof.
  intros Hcfg Hn. simpl. rewrite Hcfg. simpl.
  rewrite bool_decide_eq_false_2 by lia. reflexivity.
Qed.




(** One firing of the interval on a server with a connected client pushes
    one payload [{t: gameTick, d: players}] and flushes the buffer at
    once; with nobody connected nothing is pushed or sent. *)
Lemma tick_flushes_when_live (timeNow : Z) s :
  let s1 := onServer (step (timeNow - lastServerTime (srv s))) s in
  (size (connectedPlayers (srv s)) <> 0%nat ->
     sent (rt (tick timeNow s))
     = sent (rt s)
       ++ [EmitUpdate (outgoingBuffer (srv s)
                         ++ [mkPayload (gameTick (srv s)) (players (world (srv s1)))])]
     /\ outgoingBuffer (srv (tick timeNow s)) = [])
  /\ (size (connectedPlayers (srv s)) = 0%nat ->
        sent (rt (tick timeNow s)) = sent (rt s)
        /\ outgoingBuffer (srv (tick timeNow s)) = outgoingBuffer (srv s)).
Proof.
  intros s1. subst s1. destruct s as [sv r].
  unfold tick, sendOutgoingBuffer, send, onServer, onRuntime.
  cbn [srv rt]. rewrite step_unfold. cbn.
  split; intros Hsize.
  - rewrite bool_decide_eq_true_2 by exact Hsize. cbn. split; reflexivity.
  - rewrite bool_decide_eq_false_2 by (intros Hn; apply Hn; exact Hsize).
    cbn. split; reflexivity.
Qed.

End InputProperties.



(** C5, where the code departs from it: a configured timeout of 0 is
    replaced by the default of 40 seconds in the constructor
    ([ServerConfig.TIMEOUT_INTERVAL || 40]), so [resetIdleTimeout] does
    schedule the callback, and when it fires the client is disconnected. *)
Theorem zero_timeout_still_disconnects :
  timeoutInterval (newServer zeroTimeoutConfig meadow 0) = 40
  /\ timers (rt (resetIdleTimeout "a" (newState zeroTimeoutConfig meadow 0))) !! 1
     = Some ("a", 40000)
  /\ connected
       (socketOf "a"
          (stateOf (run (Game0 := sampleGame) 1 [Connection "a" 5 origin]
                      (newState zeroTimeoutConfig meadow 0)))) = true
  /\ connected
       (socketOf "a"
          (stateOf (run (Game0 := sampleGame) 1
                      [Connection "a" 5 origin; TimerFires 1 40005]
                      (newState zeroTimeoutConfig meadow 0)))) = false.
Proof. vm_compute. repeat split. Qed.

(** C8, where the code departs from it: with a client connected, two
    consecutive firings of the interval each push one payload and each
    flush the buffer; [outgoingDelta] (33 ms at 60 steps per second) is
    computed by [start] and never read. *)
Theorem update_is_flushed_on_consecutive_ticks :
  size (connectedPlayers (srv oneClient)) = 1%nat
  /\ sent (rt (tick (Game0 := sampleGame) 17 oneClient))
     = sent (rt oneClient) ++ [EmitUpdate [mkPayload 0 [(1, tt)]]]
  /\ size (connectedPlayers (srv (tick (Game0 := sampleGame) 17 oneClient))) = 1%nat
  /\ sent (rt (tick (Game0 := sampleGame) 33 (tick (Game0 := sampleGame) 17 oneClient)))
     = sent (rt (tick (Game0 := sampleGame) 17 oneClient))
       ++ [EmitUpdate [mkPayload 1 [(1, tt)]]]
  /\ outgoingDelta (srv oneClient) = 33.
Proof. vm_compute. repeat split. Qed.

(** ** The spawn search *)

Section SpawnProperties.

Context {Character : Type}.
Variable TileData : Z -> option Z.
Implicit Types (w : World Character) (draw : nat -> Z * Z).

(** The answer of [isPassable] on draw [i]. *)
Let tried w draw (i : nat) : result bool :=
  isPassable TileData w (draw i).1 (draw i).2 2.

Lemma spawnSearch_step (fuel : nat) draw (i : nat) w :
  spawnSearch TileData (S fuel) draw i w
  = match tried w draw i with
    | Throw e => SpawnThrew e
    | Ok true => Spawned (draw i).1 (draw i).2
    | Ok false => spawnSearch TileData fuel draw (S i) w
    end.
Proof. unfold tried. simpl. destruct (draw i) as [x y]. reflexivity. Qed.

(** Draws that are refused are passed over, one iteration each. *)
Lemma spawnSearch_skips (k : nat) : forall (fuel i : nat) draw w,
  (forall j, (j < k)%nat -> tried w draw (i + j) = Ok false) ->
  spawnSearch TileData (k + fuel) draw i w
  = spawnSearch TileData fuel draw (i + k) w.
Proof using Type.
  induction k as [| k IH]; intros fuel i draw w Hrefused.
  - simpl. rewrite Nat.add_0_r. reflexivity.
  - change (S k + fuel)%nat with (S (k + fuel)). rewrite spawnSearch_step.
    rewrite <- (Nat.add_0_r i) at 1. rewrite Hrefused by lia.
    rewrite IH.
    + f_equal. lia.
    + intros j Hj. replace (S i + j)%nat with (i + S j)%nat by lia.
      apply Hrefused. lia.
Qed.

Lemma spawnSearch_finds w draw (k : nat) (x y : Z) :
  draw k = (x, y) ->
  isPassable TileData w x y 2 = Ok true ->
  (forall j, (j < k)%nat ->
     isPassable TileData w (draw j).1 (draw j).2 2 = Ok false) ->
  forall fuel, (k < fuel)%nat ->
    spawnSearch TileData fuel draw 0 w = Spawned x y.
Proof using Type.
  intros Hdraw Hpass Hrefused fuel Hfuel.
  replace fuel with (k + S (fuel - S k))%nat by lia.
  rewrite spawnSearch_skips by (intros j Hj; apply Hrefused; exact Hj).
  rewrite spawnSearch_step. unfold tried. simpl.
  rewrite Hdraw. simpl. rewrite Hpass. reflexivity.
Qed.

Lemma spawnSearch_goes_on w draw :
  (forall j, isPassable TileData w (draw j).1 (draw j).2 2 = Ok false) ->
  forall fuel, spawnSearch TileData fuel draw 0 w = StillSearching.
Proof using Type.
  intros Hrefused fuel.
  rewrite <- (Nat.add_0_r fuel).
  rewrite spawnSearch_skips by (intros j _; apply Hrefused).
  reflexivity.
Qed.

(** C6, as the code has it: the search has no retry bound and no failure
    of its own. It ends with the first draw that [isPassable] accepts,
    on the iteration of that draw; and while every draw is refused, as
    on a world without a passable tile, it goes on whatever
    the number of iterations followed. *)
Theorem spawnSearch_ends_at_the_first_passable_draw w draw :
  (forall (k : nat) (x y : Z),
      draw k = (x, y) ->
      isPassable TileData w x y 2 = Ok true ->
      (forall j, (j < k)%nat ->
         isPassable TileData w (draw j).1 (draw j).2 2 = Ok false) ->
      forall fuel, (k < fuel)%nat ->
        spawnSearch TileData fuel draw 0 w = Spawned x y)
  /\ ((forall j, isPassable TileData w (draw j).1 (draw j).2 2 = Ok false) ->
      forall fuel, spawnSearch TileData fuel draw 0 w = StillSearching).
Proof using Type.
  split.
  - intros k x y. apply spawnSearch_finds.
  - apply spawnSearch_goes_on.
Qed.

End SpawnProperties.

(** On the meadow the second draw is the first free tile: (0, 1) holds a
    tree. On the pond no draw is ever accepted. *)
Lemma spawnSearch_ends_at_the_first_passable_draw_witness :
  (forall fuel, (1 < fuel)%nat ->
     spawnSearch sampleTileData fuel
       (fun i => match i with O => (0, 1) | _ => (1, 1) end) 0 meadow
     = Spawned 1 1)
  /\ (forall fuel, spawnSearch sampleTileData fuel origin 0 pond = StillSearching).
Proof.
  split.
  - apply (proj1 (spawnSearch_ends_at_the_first_passable_draw sampleTileData meadow
                    (fun i => match i with O => (0, 1) | _ => (1, 1) end)) 1%nat 1 1).
    + reflexivity.
    + reflexivity.
    + intros j Hj. destruct j as [| j]; [reflexivity | lia].
  - apply (proj2 (spawnSearch_ends_at_the_first_passable_draw sampleTileData pond origin)).
    intros j. reflexivity.
Defined.

(** C6 as stated fails: on the pond, whose only tile is water, every draw
    in range is (0, 0), which is refused; the search is still running after
    any number of iterations, and so is the connection handler. *)
Lemma spawn_search_never_ends_on_the_pond :
  isValidTile pond 0 0 = true
  /\ isPassable sampleTileData pond 0 0 2 = Ok false
  /\ (forall (draw : nat -> Z * Z),
        (forall i, isValidTile pond (draw i).1 (draw i).2 = true) ->
        forall fuel, spawnSearch sampleTileData fuel draw 0 pond = StillSearching)
  /\ (forall fuel, exists s,
        onPlayerConnected (Game0 := sampleGame) fuel origin 5 "a"
          (newState sampleConfig pond 0) = Hung s).
Proof.
  split; [reflexivity |]. split; [reflexivity |]. split.
  - intros draw Hrange.
    apply (spawnSearch_goes_on sampleTileData pond draw).
    intros j. specialize (Hrange j). apply isValidTile_true in Hrange. simpl in Hrange.
    replace (draw j).1 with 0 by lia. replace (draw j).2 with 0 by lia. reflexivity.
  - intros fuel. unfold onPlayerConnected, onPlayerJoinWorld.
    assert (Hs : forall w', w' = pond ->
              spawnSearch sampleTileData fuel origin 0 w' = StillSearching).
    { intros w' ->.
      apply (spawnSearch_goes_on sampleTileData pond origin).
      intros j. reflexivity. }
    simpl. rewrite Hs by reflexivity. eexists. reflexivity.
Qed.

(** ** Player ids *)

Section IdProperties.

Context {Character Params : Type} `{!Game Character Params}.
Implicit Types (s : State (Character := Character)) (sid : SocketId).

Lemma countUp_S (n : nat) : countUp (S n) = countUp n ++ [Z.of_nat (S n)].
Proof. unfold countUp. rewrite seq_S, map_app. reflexivity. Qed.

Lemma countUp_lookup (n k : nat) (id : Z) :
  countUp n !! k = Some id -> id = Z.of_nat k + 1.
Proof.
  unfold countUp. rewrite list_lookup_fmap. intros Hk.
  destruct (seq 1 n !! k) as [m |] eqn:Hm; [| discriminate].
  apply lookup_seq in Hm. simpl in Hk. injection Hk as <-. lia.
Qed.

Lemma countUp_In (n : nat) (id : Z) :
  In id (countUp n) <-> 1 <= id <= Z.of_nat n.
Proof.
  unfold countUp. rewrite in_map_iff. split.
  - intros (m & <- & Hm). apply in_seq in Hm. lia.
  - intros Hid. exists (Z.to_nat id). split; [lia |]. apply in_seq. lia.
Qed.

Lemma joinedIds_app (l1 l2 : list LogLine) :
  joinedIds (l1 ++ l2) = joinedIds l1 ++ joinedIds l2.
Proof. unfold joinedIds. apply omap_app. Qed.

Ltac noNewId_intro := unfold noNewId; split; [| split; [| split]].

Lemma noNewId_refl s : noNewId s s.
Proof. noNewId_intro; reflexivity. Qed.

Lemma noNewId_trans s1 s2 s3 : noNewId s1 s2 -> noNewId s2 s3 -> noNewId s1 s3.
Proof.
  intros (Ha1 & Ha2 & Ha3 & Ha4) (Hb1 & Hb2 & Hb3 & Hb4).
  noNewId_intro; try congruence. etrans; eassumption.
Qed.

Lemma numbered_noNewId s s' : numbered s -> noNewId s s' -> numbered s'.
Proof.
  intros (H0 & Hlog & Hkeys & Hrange & Hinj) (Hl & Hj & Hk & Hsub).
  unfold numbered. rewrite Hl, Hj, Hk.
  repeat split; try assumption.
  - eapply Hrange, lookup_weaken; eassumption.
  - eapply Hrange, lookup_weaken; eassumption.
  - intros sid1 sid2 c1 c2 H1 H2. eapply Hinj; eapply lookup_weaken; eassumption.
Qed.

(** A change outside the server object that adds no joining line. *)
Lemma noNewId_runtime s s' :
  srv s' = srv s -> joinedIds (logged (rt s')) = joinedIds (logged (rt s)) ->
  noNewId s s'.
Proof.
  intros Hsrv Hlog. unfold noNewId. rewrite Hsrv, Hlog.
  split; [| split; [| split]]; reflexivity.
Qed.

Lemma noNewId_log (l : LogLine) s :
  (forall ev, l <> LogJoined ev) -> noNewId s (log l s).
Proof.
  intros Hl. apply noNewId_runtime; [reflexivity |]. simpl.
  rewrite joinedIds_app. destruct l; simpl; try apply app_nil_r.
  exfalso. eapply Hl. reflexivity.
Qed.

Lemma noNewId_resetIdleTimeout sid s : noNewId s (resetIdleTimeout sid s).
Proof.
  destruct (resetIdleTimeout_frame sid s) as (Hsrv & _ & Hlog & _).
  apply noNewId_runtime; [exact Hsrv | rewrite Hlog; reflexivity].
Qed.

Lemma noNewId_tick (timeNow : Z) s : noNewId s (tick timeNow s).
Proof.
  destruct s as [sv r]. unfold tick, sendOutgoingBuffer, send, onServer, onRuntime.
  cbn [srv rt]. rewrite step_unfold. cbn.
  case_bool_decide; cbn; noNewId_intro; cbn;
    try reflexivity; apply emptied_keys.
Qed.

Lemma noNewId_onPlayerDisconnected sid s : noNewId s (onPlayerDisconnected sid s).
Proof.
  destruct s as [sv r]. unfold onPlayerDisconnected. cbn.
  destruct (connectedPlayers sv !! sid) as [player |]; cbn;
    noNewId_intro; cbn; rewrite ?joinedIds_app; cbn; rewrite ?app_nil_r;
    try reflexivity; apply delete_subseteq.
Qed.

Lemma noNewId_closeSocket (timeNow : Z) sid s : noNewId s (closeSocket timeNow sid s).
Proof.
  unfold closeSocket. destruct (connected (socketOf sid s)); [| apply noNewId_refl].
  destruct (onDisconnect (socketOf sid s)) as [playerEvent |].
  - unfold disconnectListener.
    eapply noNewId_trans; [| apply noNewId_runtime; reflexivity].
    eapply noNewId_trans; [| apply noNewId_log; discriminate].
    eapply noNewId_trans; [| apply noNewId_onPlayerDisconnected].
    apply noNewId_runtime; reflexivity.
  - apply noNewId_runtime; reflexivity.
Qed.

Lemma noNewId_onPlayerTimeout (timeNow : Z) sid s :
  noNewId s (onPlayerTimeout timeNow sid s).
Proof.
  unfold onPlayerTimeout.
  eapply noNewId_trans; [| apply noNewId_closeSocket].
  apply noNewId_log. discriminate.
Qed.

Lemma noNewId_queueInputForPlayer (cmd : Command) (playerId : Z) s :
  noNewId s (stateOf (queueInputForPlayer cmd playerId s)).
Proof.
  unfold queueInputForPlayer.
  destruct (Map_get playerId (playerInputQueues (srv s))) as [queue |] eqn:Hq;
    [| apply noNewId_refl].
  noNewId_intro; simpl; try reflexivity.
  apply Map_set_keys_present. exists queue. exact Hq.
Qed.

Lemma noNewId_onReceivedInput (cmd : option Envelope) sid (playerId : Z) s :
  noNewId s (stateOf (onReceivedInput cmd sid playerId s)).
Proof.
  unfold onReceivedInput.
  eapply noNewId_trans; [apply (noNewId_resetIdleTimeout sid) |].
  destruct cmd as [cmd |]; [| apply noNewId_refl].
  destruct (switchCommand (type cmd)) as [[| | |] |];
    try apply noNewId_queueInputForPlayer.
  simpl. apply noNewId_log. discriminate.
Qed.

(** Only a connection hands out an id. *)
Lemma noNewId_handle (fuel : nat) (e : Event) s :
  (forall sid timeNow draw, e <> Connection sid timeNow draw) ->
  noNewId s (stateOf (handle fuel e s)).
Proof.
  intros He. destruct e as [sid t0 draw | sid t0 | sid cmd | h t0 | t0]; simpl.
  - exfalso. eapply He. reflexivity.
  - apply noNewId_closeSocket.
  - destruct (connected (socketOf sid s)); [| apply noNewId_refl].
    destruct (onInputCommand (socketOf sid s)); [| apply noNewId_refl].
    apply noNewId_onReceivedInput.
  - destruct (timers (rt s) !! h) as [[sid delay] |]; [| apply noNewId_refl].
    simpl. eapply noNewId_trans; [| apply noNewId_onPlayerTimeout].
    apply noNewId_runtime; reflexivity.
  - apply noNewId_tick.
Qed.

(** What a connection does to the ids, whether or not the new player then
    finds a place in the world. *)
Lemma onPlayerConnected_effect (fuel : nat) (draw : nat -> Z * Z) (timeNow : Z) sid s :
  let s' := stateOf (onPlayerConnected fuel draw timeNow sid s) in
  let id := lastPlayerID (srv s) + 1 in
  lastPlayerID (srv s') = id
  /\ connectedPlayers (srv s')
     = <[sid := mkClient sid "new" id]> (connectedPlayers (srv s))
  /\ playerInputQueues (srv s') = Map_set id [] (playerInputQueues (srv s))
  /\ logged (rt s')
     = logged (rt s)
       ++ [LogClientConnected (Z.of_nat (size (connectedPlayers (srv s))) + 1);
           LogJoined (mkPlayerEvent sid id (getSeverTime timeNow (srv s)) 0 None None)]
  /\ forall s1, onPlayerConnected fuel draw timeNow sid s = Done s1 ->
       exists (tiles trees chests weather : Json) (ev : PlayerEvent),
         ev_playerId ev = id
         /\ sent (rt s1)
            = sent (rt s)
              ++ [EmitInitWorld sid
                    (mkInitWorld (players (world (srv s1))) tiles trees chests id
                       weather);
                  BroadcastPlayerEvent sid (Some ev)].
Proof.
  intros s' id. subst s'. unfold onPlayerConnected, onPlayerJoinWorld.
  match goal with
  | |- context [resetIdleTimeout sid ?s4] =>
      pose proof (resetIdleTimeout_frame sid s4) as (Hsrv & Hsent & Hlog & _);
      set (s5 := resetIdleTimeout sid s4) in *; clearbody s5
  end.
  destruct s as [sv r], s5 as [sv5 r5]. cbn in Hsrv, Hsent, Hlog. subst sv5.
  cbn [srv world set_world].
  match goal with
  | |- context [spawnSearch ?td ?f ?dr ?i ?w] => destruct (spawnSearch td f dr i w)
  end; cbn; rewrite ?Hlog; cbn; rewrite <- ?app_assoc; cbn;
    (split; [reflexivity | split; [reflexivity | split; [reflexivity |
       split; [reflexivity |]]]]);
    intros s1 Hdone; try discriminate.
  injection Hdone as <-. cbn. rewrite Hsent. cbn.
  eexists _, _, _, _, _. split; [| rewrite <- app_assoc; reflexivity]. reflexivity.
Qed.

Lemma numbered_onPlayerConnected (fuel : nat) (draw : nat -> Z * Z) (timeNow : Z) sid s :
  numbered s -> numbered (stateOf (onPlayerConnected fuel draw timeNow sid s)).
Proof.
  intros (H0 & Hlog & Hkeys & Hrange & Hinj).
  destruct (onPlayerConnected_effect fuel draw timeNow sid s)
    as (Hlast & Hcp & Hq & Hl & _).
  unfold numbered. rewrite Hlast, Hcp, Hq, Hl.
  replace (Z.to_nat (lastPlayerID (srv s) + 1))
    with (S (Z.to_nat (lastPlayerID (srv s)))) by lia.
  rewrite countUp_S.
  replace (Z.of_nat (S (Z.to_nat (lastPlayerID (srv s)))))
    with (lastPlayerID (srv s) + 1) by lia.
  split; [lia |]. split; [| split; [| split]].
  - rewrite joinedIds_app, Hlog. reflexivity.
  - rewrite Map_set_keys_absent, Hkeys; [reflexivity |].
    apply Map_get_None_keys. rewrite Hkeys, countUp_In. lia.
  - intros sid0 c Hc. destruct (decide (sid = sid0)) as [<- | Hne].
    + rewrite lookup_insert_eq in Hc. injection Hc as <-. simpl. lia.
    + rewrite lookup_insert_ne in Hc by exact Hne. apply Hrange in Hc. lia.
  - intros sid1 sid2 c1 c2 H1 H2 Heq.
    destruct (decide (sid = sid1)) as [<- | Hne1];
      destruct (decide (sid = sid2)) as [<- | Hne2]; [reflexivity | | |].
    + rewrite lookup_insert_eq in H1. rewrite lookup_insert_ne in H2 by exact Hne2.
      injection H1 as <-. apply Hrange in H2. simpl in Heq. lia.
    + rewrite lookup_insert_eq in H2. rewrite lookup_insert_ne in H1 by exact Hne1.
      injection H2 as <-. apply Hrange in H1. simpl in Heq. lia.
    + rewrite lookup_insert_ne in H1 by exact Hne1.
      rewrite lookup_insert_ne in H2 by exact Hne2. eapply Hinj; eassumption.
Qed.

Lemma numbered_newState (cfg : ServerConfig) (w : World Character) (timeNow : Z) :
  numbered (newState cfg w timeNow).
Proof.
  unfold numbered. simpl. split; [lia |]. split; [reflexivity |].
  split; [reflexivity |]. split.
  - intros sid c Hc. rewrite lookup_empty in Hc. discriminate.
  - intros sid1 sid2 c1 c2 Hc. rewrite lookup_empty in Hc. discriminate.
Qed.

Lemma numbered_handle (fuel : nat) (e : Event) s :
  numbered s -> numbered (stateOf (handle fuel e s)).
Proof.
  intros Hs. destruct e as [sid t0 draw | sid t0 | sid cmd | h t0 | t0];
    try (eapply numbered_noNewId; [exact Hs | apply noNewId_handle; discriminate]).
  simpl. apply numbered_onPlayerConnected.
  eapply numbered_noNewId; [exact Hs | apply noNewId_runtime; reflexivity].
Qed.

Lemma numbered_run (fuel : nat) (es : list Event) : forall s,
  numbered s -> numbered (stateOf (run fuel es s)).
Proof.
  induction es as [| e es IH]; intros s Hs; simpl; [exact Hs |].
  pose proof (numbered_handle fuel e s Hs) as He.
  destruct (handle fuel e s) as [s1 | err s1 | s1]; simpl in *;
    [apply IH; exact He | exact He | exact He].
Qed.

(** A run that handled all its events handed out one id per connection. *)
Lemma lastPlayerID_run (fuel : nat) (es : list Event) : forall s s1,
  run fuel es s = Done s1 ->
  lastPlayerID (srv s1) = lastPlayerID (srv s) + Z.of_nat (connections es).
Proof.
  induction es as [| e es IH]; intros s s1 Hrun; simpl in Hrun.
  - injection Hrun as <-. simpl. lia.
  - destruct (handle fuel e s) as [s2 | err s2 | s2] eqn:He; try discriminate.
    rewrite (IH s2 s1 Hrun).
    destruct e as [sid t0 draw | sid t0 | sid cmd | h t0 | t0];
      try (match type of He with
           | handle _ ?e _ = _ =>
               destruct (noNewId_handle fuel e s) as (Hl & _);
               [intros; discriminate |]
           end;
           rewrite He in Hl; simpl in Hl; rewrite Hl; simpl; lia).
    simpl in He.
    destruct (onPlayerConnected_effect fuel draw t0 sid (setSocket sid freshSocket s))
      as (Hlast & _).
    rewrite He in Hlast. simpl in Hlast. rewrite Hlast.
    change (connections (Connection sid t0 draw :: es)) with (S (connections es)).
    lia.
Qed.

(** C9: whatever the events (connections, disconnections, input, timers,
    ticks) and however the run ends, the ids handed out are 1, 2, 3, ...
    in the order of the connections, the input queues are keyed by
    exactly these ids, and no two connected clients hold the same id;
    after a run that handled [n] connections the next client to connect
    is given [n + 1], and is sent it in its ['initWorld'] message. *)
Theorem playerIds_count_up (fuel : nat) (es : list Event) (cfg : ServerConfig)
    (w : World Character) (timeNow : Z) :
  let o := run fuel es (newState cfg w timeNow) in
  let s := stateOf o in
  let n := Z.to_nat (lastPlayerID (srv s)) in
  joinedIds (logged (rt s)) = countUp n
  /\ (forall (k : nat) (id : Z),
        joinedIds (logged (rt s)) !! k = Some id -> id = Z.of_nat k + 1)
  /\ map fst (playerInputQueues (srv s)) = countUp n
  /\ (forall sid1 sid2 c1 c2,
        connectedPlayers (srv s) !! sid1 = Some c1 ->
        connectedPlayers (srv s) !! sid2 = Some c2 ->
        playerId c1 = playerId c2 -> sid1 = sid2)
  /\ (forall s1, o = Done s1 ->
        lastPlayerID (srv s1) = Z.of_nat (connections es)
        /\ forall sid t0 draw,
             let o2 := handle fuel (Connection sid t0 draw) s1 in
             let id := Z.of_nat (connections es) + 1 in
             connectedPlayers (srv (stateOf o2)) !! sid = Some (mkClient sid "new" id)
             /\ joinedIds (logged (rt (stateOf o2)))
                = joinedIds (logged (rt s1)) ++ [id]
             /\ forall s2, o2 = Done s2 ->
                  exists (tiles trees chests weather : Json) (ev : PlayerEvent),
                    ev_playerId ev = id
                    /\ sent (rt s2)
                       = sent (rt s1)
                         ++ [EmitInitWorld sid
                               (mkInitWorld (players (world (srv s2))) tiles trees
                                  chests id weather);
                             BroadcastPlayerEvent sid (Some ev)]).
Proof.
  intros o s n.
  pose proof (numbered_run fuel es _ (numbered_newState cfg w timeNow))
    as (H0 & Hlog & Hkeys & Hrange & Hinj).
  fold o in H0, Hlog, Hkeys, Hrange, Hinj. fold s in H0, Hlog, Hkeys, Hrange, Hinj.
  split; [exact Hlog |].
  split; [intros k id Hk; rewrite Hlog in Hk; eapply countUp_lookup; exact Hk |].
  split; [exact Hkeys |]. split; [exact Hinj |].
  intros s1 Ho.
  pose proof (lastPlayerID_run fuel es _ s1 Ho) as Hlast. simpl in Hlast.
  split; [exact Hlast |].
  intros sid t0 draw o2 id. subst o2. simpl.
  destruct (onPlayerConnected_effect fuel draw t0 sid (setSocket sid freshSocket s1))
    as (_ & Hcp & _ & Hl & Hsent).
  cbn [srv rt setSocket onRuntime logged sent] in Hcp, Hl, Hsent.
  rewrite Hlast in Hcp, Hl, Hsent. fold id in Hcp, Hl, Hsent.
  split; [rewrite Hcp; apply lookup_insert_eq |].
  split; [rewrite Hl, joinedIds_app; reflexivity |].
  exact Hsent.
Qed.

End IdProperties.

(** The first client is given id 1; after it has left, the next one is
    given id 2. *)
Example first_client_gets_id_1 :
  connectedPlayers (srv oneClient) !! "a" = Some (mkClient "a" "new" 1)
  /\ sent (rt oneClient)
     = [EmitInitWorld "a"
          (mkInitWorld [(1, tt)] (jsonOfRows (tileMap meadow)) (JArray []) (JArray []) 1
             JNull);
        BroadcastPlayerEvent "a" (Some (mkPlayerEvent "a" 1 5 0 (Some 0) (Some 0)))]
  /\ connectedPlayers
       (srv (stateOf (run (Game0 := sampleGame) 1
                        [Disconnect "a" 9; Connection "b" 12 origin] oneClient)))
     = {["b" := mkClient "b" "new" 2]}.
Proof. vm_compute. repeat split. Qed.

(** * Further properties *)

(** ** Counted loops and two-dimensional arrays *)

Lemma forEachIndex_invariant {St : Type} (body : Z -> St -> result St)
    (P : nat -> St -> Prop) (n : nat) : forall (a : nat) (s : St),
  P a s ->
  (forall (k : nat) (s0 : St), (a <= k < a + n)%nat -> P k s0 ->
     exists s1, body (Z.of_nat k) s0 = Ok s1 /\ P (S k) s1) ->
  exists s', forEachIndex (seq a n) body s = Ok s' /\ P (a + n)%nat s'.
Proof.
  induction n as [| n IH]; intros a s Hs Hbody; simpl.
  - exists s. rewrite Nat.add_0_r. split; [reflexivity | exact Hs].
  - destruct (Hbody a s ltac:(lia) Hs) as (s1 & Hs1 & HP1). rewrite Hs1.
    destruct (IH (S a) s1 HP1) as (s' & Hs' & HP').
    { intros k s0 Hk. apply Hbody. lia. }
    exists s'. split; [exact Hs' |].
    replace (a + S n)%nat with (S a + n)%nat by lia. exact HP'.
Qed.

(** The loop stops at the first iteration that throws. *)
Lemma forEachIndex_throws {St : Type} (body : Z -> St -> result St)
    (P : St -> Prop) (e : JsError) (n : nat) : forall (a k : nat) (s : St),
  (a <= k < a + n)%nat ->
  P s ->
  (forall (j : nat) (s0 : St), (a <= j < k)%nat -> P s0 ->
     exists s1, body (Z.of_nat j) s0 = Ok s1 /\ P s1) ->
  (forall s0, P s0 -> body (Z.of_nat k) s0 = Throw e) ->
  forEachIndex (seq a n) body s = Throw e.
Proof.
  induction n as [| n IH]; intros a k s Hk Hs Hbefore Hat; [lia |].
  simpl. destruct (decide (a = k)) as [-> | Hne].
  - rewrite (Hat s Hs). reflexivity.
  - destruct (Hbefore a s ltac:(lia) Hs) as (s1 & Hs1 & HP1). rewrite Hs1.
    apply (IH (S a) k s1); [lia | exact HP1 | | exact Hat].
    intros j s0 Hj. apply Hbefore. lia.
Qed.

Lemma js_get_lookup {A : Type} (arr : list A) (i : Z) :
  0 <= i -> js_get arr i = arr !! Z.to_nat i.
Proof. intros Hi. unfold js_get. rewrite bool_decide_eq_false_2 by lia. reflexivity. Qed.

(** An assignment to a cell of an existing row is read back, and is the
    only cell that reads differently afterwards. *)
Lemma js_put2_spec {A : Type} (arr : list (list (option A))) (i j : Z) (v : A) :
  0 <= i < Z.of_nat (length arr) -> 0 <= j ->
  exists arr',
    js_put2 arr i j v = Ok arr'
    /\ length arr' = length arr
    /\ js_get2 arr' i j = Ok (Some v)
    /\ forall x y, (x, y) <> (i, j) -> js_get2 arr' x y = js_get2 arr x y.
Proof.
  intros Hi Hj. unfold js_put2.
  destruct (js_get_in_range arr i Hi) as [row Hrow]. rewrite Hrow.
  eexists. split; [reflexivity |].
  assert (Hlookup : arr !! Z.to_nat i = Some row).
  { rewrite <- js_get_lookup by lia. exact Hrow. }
  split; [apply length_insert |]. split.
  - unfold js_get2. rewrite js_get_lookup by lia.
    rewrite list_lookup_insert_eq by (eapply lookup_lt_Some; exact Hlookup).
    rewrite js_get_put_same by lia. reflexivity.
  - intros x y Hne. unfold js_get2. destruct (decide (x = i)) as [-> | Hx].
    + assert (Hy : j <> y) by congruence.
      rewrite !js_get_lookup by lia.
      rewrite list_lookup_insert_eq by (eapply lookup_lt_Some; exact Hlookup).
      rewrite Hlookup. rewrite js_get_put_other by lia. reflexivity.
    + unfold js_get. case_bool_decide; [reflexivity |].
      rewrite list_lookup_insert_ne by lia. reflexivity.
Qed.

Lemma js_put2_missing_row {A : Type} (arr : list (list (option A))) (i j : Z) (v : A) :
  i < 0 \/ Z.of_nat (length arr) <= i -> js_put2 arr i j v = Throw TypeError.
Proof.
  intros [Hi | Hi]; unfold js_put2.
  - rewrite js_get_negative by exact Hi. reflexivity.
  - rewrite js_get_past_end by exact Hi. reflexivity.
Qed.

Section FillProperties.

Context {A : Type}.
Variables (rowsN colsN : Z) (act : Z -> Z -> CellAction A).
Implicit Types (arr : list (list (option A))).

Lemma partlyFilled_start arr x y : partlyFilled 0 0 colsN act arr x y = js_get2 arr x y.
Proof using Type.
  unfold partlyFilled. rewrite bool_decide_eq_false_2 by lia. reflexivity.
Qed.

Lemma partlyFilled_other arr (i k x y : Z) :
  (x, y) <> (i, k) ->
  partlyFilled i (k + 1) colsN act arr x y = partlyFilled i k colsN act arr x y.
Proof using Type.
  intros Hne. unfold partlyFilled.
  assert (Hxy : x <> i \/ y <> k).
  { destruct (decide (x = i)) as [-> | ?]; [right; congruence | left; assumption]. }
  erewrite bool_decide_ext; [reflexivity |]. lia.
Qed.

Lemma partlyFilled_before arr (i k : Z) :
  partlyFilled i k colsN act arr i k = js_get2 arr i k.
Proof using Type.
  unfold partlyFilled. rewrite bool_decide_eq_false_2 by lia. reflexivity.
Qed.

Lemma partlyFilled_at arr (i k : Z) :
  0 <= k ->
  partlyFilled i (k + 1) colsN act arr i k
  = match act i k with
    | Put v => Ok (Some v)
    | _ => js_get2 arr i k
    end.
Proof using Type.
  intros Hk. unfold partlyFilled. rewrite bool_decide_eq_true_2 by lia. reflexivity.
Qed.

Lemma partlyFilled_next_row arr (i : Z) x y :
  0 <= i ->
  partlyFilled i (Z.of_nat (Z.to_nat colsN)) colsN act arr x y
  = partlyFilled (i + 1) 0 colsN act arr x y.
Proof using Type.
  intros Hi. unfold partlyFilled. erewrite bool_decide_ext; [reflexivity |]. lia.
Qed.

Lemma partlyFilled_end arr x y :
  partlyFilled (Z.of_nat (Z.to_nat rowsN)) 0 colsN act arr x y
  = filled rowsN colsN act arr x y.
Proof using Type.
  unfold partlyFilled, filled. erewrite bool_decide_ext; [reflexivity |]. lia.
Qed.

(** One row of the fill. *)
Lemma fill_row arr (i : nat) (a0 : list (list (option A))) :
  (forall j, 0 <= j < colsN -> cellOk act arr (Z.of_nat i) j) ->
  length a0 = length arr ->
  (forall x y, js_get2 a0 x y = partlyFilled (Z.of_nat i) 0 colsN act arr x y) ->
  exists a1,
    forUpTo colsN
      (fun j a' => match act (Z.of_nat i) j with
                   | Leave => Ok a'
                   | Put v => js_put2 a' (Z.of_nat i) j v
                   | Fail => Throw TypeError
                   end) a0 = Ok a1
    /\ length a1 = length arr
    /\ forall x y, js_get2 a1 x y = partlyFilled (Z.of_nat (S i)) 0 colsN act arr x y.
Proof using Type.
  intros Hact Hlen Hreads. unfold forUpTo.
  edestruct (forEachIndex_invariant
               (fun j a' => match act (Z.of_nat i) j with
                            | Leave => Ok a'
                            | Put v => js_put2 a' (Z.of_nat i) j v
                            | Fail => Throw TypeError
                            end)
               (fun k a => length a = length arr
                           /\ forall x y, js_get2 a x y
                              = partlyFilled (Z.of_nat i) (Z.of_nat k) colsN act arr x y)
               (Z.to_nat colsN) 0%nat a0) as (a1 & Ha1 & Hl1 & Hr1).
  - split; [exact Hlen | exact Hreads].
  - intros k a [_ Hk] [Hl Hr].
    specialize (Hact (Z.of_nat k) ltac:(lia)). unfold cellOk in Hact.
    pose proof (partlyFilled_at arr (Z.of_nat i) (Z.of_nat k) ltac:(lia)) as Hat.
    replace (Z.of_nat (S k)) with (Z.of_nat k + 1) by lia.
    destruct (act (Z.of_nat i) (Z.of_nat k)) as [| v |] eqn:Hcell; [| | contradiction].
    + exists a. split; [reflexivity |]. split; [exact Hl |].
      intros x y. destruct (decide ((x, y) = (Z.of_nat i, Z.of_nat k))) as [Heq | Hne].
      * injection Heq as -> ->. rewrite Hat, Hr. apply partlyFilled_before.
      * rewrite partlyFilled_other by exact Hne. apply Hr.
    + destruct (js_put2_spec a (Z.of_nat i) (Z.of_nat k) v) as (a2 & Ha2 & Hl2 & Hsame & Hother);
        [lia | lia |].
      exists a2. split; [exact Ha2 |]. split; [congruence |].
      intros x y. destruct (decide ((x, y) = (Z.of_nat i, Z.of_nat k))) as [Heq | Hne].
      * injection Heq as -> ->. rewrite Hat. exact Hsame.
      * rewrite partlyFilled_other by exact Hne. rewrite Hother by exact Hne. apply Hr.
  - exists a1. split; [exact Ha1 |]. split; [exact Hl1 |].
    intros x y. rewrite Hr1. simpl.
    rewrite partlyFilled_next_row by lia. f_equal. lia.
Qed.

(** A fill that visits only cells it can handle runs to its end, keeps the
    number of rows, and afterwards every cell it assigned reads as the
    value assigned and every other cell as before. *)
Lemma fill_spec arr :
  (forall i j, 0 <= i < rowsN -> 0 <= j < colsN -> cellOk act arr i j) ->
  exists arr',
    fill rowsN colsN act arr = Ok arr'
    /\ length arr' = length arr
    /\ forall x y, js_get2 arr' x y = filled rowsN colsN act arr x y.
Proof using Type.
  intros Hact. unfold fill, forUpTo.
  edestruct (forEachIndex_invariant
               (fun i a =>
                  forEachIndex (seq 0 (Z.to_nat colsN))
                    (fun j a' => match act i j with
                                 | Leave => Ok a'
                                 | Put v => js_put2 a' i j v
                                 | Fail => Throw TypeError
                                 end) a)
               (fun i a => length a = length arr
                           /\ forall x y, js_get2 a x y
                              = partlyFilled (Z.of_nat i) 0 colsN act arr x y)
               (Z.to_nat rowsN) 0%nat arr) as (a1 & Ha1 & Hl1 & Hr1).
  - split; [reflexivity |]. intros x y. symmetry. apply partlyFilled_start.
  - intros i a [_ Hi] [Hl Hr].
    destruct (fill_row arr i a) as (a2 & Ha2 & Hl2 & Hr2);
      [intros j Hj; apply Hact; lia | exact Hl | exact Hr |].
    exists a2. split; [exact Ha2 |]. split; [exact Hl2 | exact Hr2].
  - exists a1. split; [exact Ha1 |]. split; [exact Hl1 |].
    intros x y. rewrite Hr1. apply partlyFilled_end.
Qed.

Lemma forEachIndex_app {St : Type} (body : Z -> St -> result St) (l1 l2 : list nat) :
  forall s, forEachIndex (l1 ++ l2) body s
            = bindResult (forEachIndex l1 body s) (forEachIndex l2 body).
Proof using Type.
  induction l1 as [| i l1 IH]; intros s; simpl; [reflexivity |].
  destruct (body (Z.of_nat i) s) as [s1 | e]; [apply IH | reflexivity].
Qed.

(** A fill whose rows above [i0] can be handled and whose row [i0] cannot
    be entered throws. *)
Lemma fill_throws arr (i0 : Z) :
  0 <= i0 < rowsN -> 0 < colsN ->
  (forall i j, 0 <= i < i0 -> 0 <= j < colsN -> cellOk act arr i j) ->
  ~ cellOk act arr i0 0 ->
  fill rowsN colsN act arr = Throw TypeError.
Proof using Type.
  intros Hi0 Hcols Hbefore Hbad.
  assert (Hprefix : exists a1,
             forEachIndex (seq 0 (Z.to_nat i0))
               (fun i a =>
                  forUpTo colsN
                    (fun j a' => match act i j with
                                 | Leave => Ok a'
                                 | Put v => js_put2 a' i j v
                                 | Fail => Throw TypeError
                                 end) a) arr = Ok a1
             /\ length a1 = length arr).
  { edestruct (forEachIndex_invariant
                 (fun i a =>
                    forUpTo colsN
                      (fun j a' => match act i j with
                                   | Leave => Ok a'
                                   | Put v => js_put2 a' i j v
                                   | Fail => Throw TypeError
                                   end) a)
                 (fun i a => length a = length arr
                             /\ forall x y, js_get2 a x y
                                = partlyFilled (Z.of_nat i) 0 colsN act arr x y)
                 (Z.to_nat i0) 0%nat arr) as (a1 & Ha1 & Hl1 & _).
    - split; [reflexivity |]. intros x y. symmetry. apply partlyFilled_start.
    - intros i a [_ Hi] [Hl Hr].
      destruct (fill_row arr i a) as (a2 & Ha2 & Hl2 & Hr2);
        [intros j Hj; apply Hbefore; lia | exact Hl | exact Hr |].
      exists a2. split; [exact Ha2 |]. split; [exact Hl2 | exact Hr2].
    - exists a1. split; [exact Ha1 | exact Hl1]. }
  destruct Hprefix as (a1 & Ha1 & Hl1).
  unfold fill, forUpTo at 1.
  replace (Z.to_nat rowsN) with (Z.to_nat i0 + S (Z.to_nat rowsN - Z.to_nat i0 - 1))%nat
    by lia.
  rewrite seq_app, forEachIndex_app, Ha1.
  cbn [bindResult Nat.add seq forEachIndex]. rewrite Z2Nat.id by lia.
  unfold forUpTo.
  replace (Z.to_nat colsN) with (S (Z.to_nat colsN - 1)) by lia.
  cbn [seq forEachIndex]. change (Z.of_nat 0) with 0.
  unfold cellOk in Hbad. destruct (act i0 0) as [| v |].
  - exfalso. apply Hbad. exact I.
  - rewrite js_put2_missing_row; [reflexivity |]. lia.
  - reflexivity.
Qed.

End FillProperties.

(** ** Generating a world *)

Lemma js_get2_row {A : Type} (arr : list (list (option A))) (i j : Z) (v : option A) :
  js_get2 arr i j = Ok v ->
  exists row, js_get arr i = Some row /\ mjoin (js_get row j) = v.
Proof.
  unfold js_get2. destruct (js_get arr i) as [row |]; [| discriminate].
  intros Hv. injection Hv as <-. exists row. split; reflexivity.
Qed.

Lemma js_get2_emptyRows {A : Type} (height x y : Z) :
  0 <= x < height -> js_get2 (emptyRows (A := A) height) x y = Ok None.
Proof.
  intros Hx. unfold js_get2, emptyRows. rewrite js_get_lookup by lia.
  rewrite lookup_replicate_2 by lia. unfold js_get.
  case_bool_decide; reflexivity.
Qed.

Lemma length_emptyRows {A : Type} (height : Z) :
  length (emptyRows (A := A) height) = Z.to_nat height.
Proof. apply length_replicate. Qed.

Lemma getBiomeType_range (e m : option Q) : 0 <= getBiomeType e m <= 3.
Proof. unfold getBiomeType. repeat case_match; lia. Qed.

Lemma generateNoise_spec (sample : Z -> Z -> Q) (arr : list (list (option Q)))
    (width height : Z) :
  (0 < height -> width <= Z.of_nat (length arr)) ->
  exists arr',
    generateNoise sample arr width height = Ok arr'
    /\ length arr' = length arr
    /\ forall x y, js_get2 arr' x y
                   = if bool_decide (0 <= x < width /\ 0 <= y < height)
                     then Ok (Some (sample x y)) else js_get2 arr x y.
Proof.
  intros Hrows. unfold generateNoise.
  destruct (fill_spec width height (fun i j => Put (sample i j)) arr)
    as (arr' & Hfill & Hlen & Hreads).
  { intros i j Hi Hj. unfold cellOk. lia. }
  exists arr'. split; [exact Hfill |]. split; [exact Hlen |].
  intros x y. rewrite Hreads. unfold filled. reflexivity.
Qed.

Lemma generateNoise_throws (sample : Z -> Z -> Q) (arr : list (list (option Q)))
    (width height : Z) :
  0 < height -> Z.of_nat (length arr) < width ->
  generateNoise sample arr width height = Throw TypeError.
Proof.
  intros Hheight Hrows. unfold generateNoise.
  apply (fill_throws width height _ arr (Z.of_nat (length arr))); [lia | lia | |].
  - intros i j Hi Hj. unfold cellOk. lia.
  - unfold cellOk. lia.
Qed.

(** X1: [generateNoise] needs a row for every [i] below [width]: when the
    array has them (or [height] leaves nothing to write) it stores the
    sample of every cell of the [width] x [height] block and leaves the
    rest of the array as it was; when [height] is positive and the array
    has fewer than [width] rows it throws a [TypeError]. *)
Theorem generateNoise_fills_or_throws (sample : Z -> Z -> Q)
    (arr : list (list (option Q))) (width height : Z) :
  if bool_decide (0 < height /\ Z.of_nat (length arr) < width) then
    generateNoise sample arr width height = Throw TypeError
  else
    exists arr',
      generateNoise sample arr width height = Ok arr'
      /\ length arr' = length arr
      /\ forall x y, js_get2 arr' x y
                     = if bool_decide (0 <= x < width /\ 0 <= y < height)
                       then Ok (Some (sample x y)) else js_get2 arr x y.
Proof.
  case_bool_decide as Hcase.
  - apply generateNoise_throws; lia.
  - apply generateNoise_spec. lia.
Qed.

Lemma generateTileMap_act (hm mo : list (list (option Q))) (x y : Z) (e m : option Q) :
  js_get2 hm x y = Ok e -> js_get2 mo x y = Ok m ->
  match js_get hm x with
  | None => Fail
  | Some hrow =>
      match js_get mo x with
      | None => Fail
      | Some mrow => Put (getBiomeType (mjoin (js_get hrow y)) (mjoin (js_get mrow y)))
      end
  end = Put (getBiomeType e m).
Proof.
  intros He Hm.
  destruct (js_get2_row hm x y e He) as (hrow & -> & <-).
  destruct (js_get2_row mo x y m Hm) as (mrow & -> & <-). reflexivity.
Qed.

Lemma js_get2_in_rows {A : Type} (arr : list (list (option A))) (x y : Z) :
  0 <= x < Z.of_nat (length arr) -> exists v, js_get2 arr x y = Ok v.
Proof.
  intros Hx. unfold js_get2. destruct (js_get_in_range arr x Hx) as [row ->].
  eexists. reflexivity.
Qed.

Lemma generateTileMap_spec (tilemap : list Row)
    (heightmap moisture : list (list (option Q))) :
  (length tilemap <= length heightmap)%nat -> (length tilemap <= length moisture)%nat ->
  exists tiles,
    generateTileMap tilemap heightmap moisture = Ok tiles
    /\ length tiles = length tilemap
    /\ forall x y,
         if bool_decide (0 <= x < Z.of_nat (length tilemap)
                         /\ 0 <= y < Z.of_nat (length tilemap))
         then exists e m tile,
                js_get2 heightmap x y = Ok e /\ js_get2 moisture x y = Ok m
                /\ tile = getBiomeType e m /\ 0 <= tile <= 3
                /\ js_get2 tiles x y = Ok (Some tile)
         else js_get2 tiles x y = js_get2 tilemap x y.
Proof.
  intros Hhm Hmo. unfold generateTileMap.
  set (n := Z.of_nat (length tilemap)).
  assert (Hcell : forall x y, 0 <= x < n ->
            exists e m, js_get2 heightmap x y = Ok e /\ js_get2 moisture x y = Ok m).
  { intros x y Hx.
    destruct (js_get2_in_rows heightmap x y) as [e He]; [lia |].
    destruct (js_get2_in_rows moisture x y) as [m Hm]; [lia |].
    exists e, m. split; assumption. }
  match goal with
  | |- context [fill n n ?act tilemap] =>
      destruct (fill_spec n n act tilemap) as (tiles & Hfill & Hlen & Hreads)
  end.
  { intros i j Hi Hj. unfold cellOk.
    destruct (Hcell i j Hi) as (e & m & He & Hm).
    rewrite (generateTileMap_act _ _ _ _ _ _ He Hm). exact Hi. }
  exists tiles. split; [exact Hfill |]. split; [exact Hlen |].
  intros x y. specialize (Hreads x y). unfold filled in Hreads.
  case_bool_decide as Hin; [| exact Hreads].
  destruct (Hcell x y ltac:(lia)) as (e & m & He & Hm).
  rewrite (generateTileMap_act _ _ _ _ _ _ He Hm) in Hreads.
  exists e, m, (getBiomeType e m).
  split; [exact He |]. split; [exact Hm |]. split; [reflexivity |].
  split; [apply getBiomeType_range | exact Hreads].
Qed.

(** X2: on height and moisture maps that have a row for every row of the
    tile map, [generateTileMap] does not throw; it keeps the number of rows
    and leaves in every cell of the [n] x [n] block ([n] the number of
    rows) the biome of what the two maps hold there, one of the tiles 0 to
    3, and every other cell as it was. *)
Theorem generateTileMap_writes_biomes (tilemap : list Row)
    (heightmap moisture : list (list (option Q))) :
  (length tilemap <= length heightmap)%nat -> (length tilemap <= length moisture)%nat ->
  exists tiles,
    generateTileMap tilemap heightmap moisture = Ok tiles
    /\ length tiles = length tilemap
    /\ forall x y,
         if bool_decide (0 <= x < Z.of_nat (length tilemap)
                         /\ 0 <= y < Z.of_nat (length tilemap))
         then exists e m tile,
                js_get2 heightmap x y = Ok e /\ js_get2 moisture x y = Ok m
                /\ tile = getBiomeType e m /\ 0 <= tile <= 3
                /\ js_get2 tiles x y = Ok (Some tile)
         else js_get2 tiles x y = js_get2 tilemap x y.
Proof. apply generateTileMap_spec. Qed.

Lemma generateTileMap_writes_biomes_witness :
  exists tiles,
    generateTileMap [[]; []] [[Some 0.6%Q]; []] [[]; []] = Ok tiles
    /\ length tiles = length [[]; [] : Row]
    /\ forall x y,
         if bool_decide (0 <= x < Z.of_nat (length [[]; [] : Row])
                         /\ 0 <= y < Z.of_nat (length [[]; [] : Row]))
         then exists e m tile,
                js_get2 [[Some 0.6%Q]; []] x y = Ok e /\ js_get2 [[]; []] x y = Ok m
                /\ tile = getBiomeType e m /\ 0 <= tile <= 3
                /\ js_get2 tiles x y = Ok (Some tile)
         else js_get2 tiles x y = js_get2 [[]; []] x y.
Proof.
  apply (generateTileMap_writes_biomes [[]; []] [[Some 0.6%Q]; []] [[]; []]);
    simpl; lia.
Defined.

Lemma generateTrees_spec (plant : Z -> Z -> bool)
    (tilemap objectMap : list Row) :
  (length tilemap <= length objectMap)%nat ->
  exists trees,
    generateTrees plant tilemap objectMap = Ok trees
    /\ length trees = length objectMap
    /\ forall x y,
         js_get2 trees x y
         = if bool_decide (0 <= x < Z.of_nat (length tilemap)
                           /\ 0 <= y < Z.of_nat (length tilemap))
              && isGrassAt tilemap x y && plant x y
           then Ok (Some 0) else js_get2 objectMap x y.
Proof.
  intros Hrows. unfold generateTrees.
  set (n := Z.of_nat (length tilemap)).
  assert (Hact : forall x y, 0 <= x < n ->
            match js_get tilemap x with
            | None => Fail
            | Some row =>
                if bool_decide (mjoin (js_get row y) = Some 0) then
                  if plant x y then Put 0 else Leave
                else Leave
            end
            = if isGrassAt tilemap x y && plant x y then Put 0 else Leave).
  { intros x y Hx. unfold isGrassAt, js_get2.
    destruct (js_get_in_range tilemap x Hx) as [row ->].
    destruct (mjoin (js_get row y)) as [tile |]; [| case_bool_decide; [discriminate | reflexivity]].
    repeat case_bool_decide; try congruence; destruct (plant x y); reflexivity. }
  match goal with
  | |- context [fill n n ?act objectMap] =>
      destruct (fill_spec n n act objectMap) as (trees & Hfill & Hlen & Hreads)
  end.
  { intros i j Hi Hj. unfold cellOk. rewrite Hact by exact Hi.
    destruct (_ && _); [lia | exact I]. }
  exists trees. split; [exact Hfill |]. split; [exact Hlen |].
  intros x y. rewrite Hreads. unfold filled.
  case_bool_decide as Hin; simpl; [| reflexivity].
  rewrite Hact by lia. destruct (_ && _); reflexivity.
Qed.

(** X3: on an object map that has a row for every row of the tile map,
    [generateTrees] does not throw and changes nothing but this: in the
    [n] x [n] block it puts a tree (0) on each grass tile for which the
    draw says so. A tree is never put on a tile that is not grass. *)
Theorem generateTrees_plants_on_grass_only (plant : Z -> Z -> bool)
    (tilemap objectMap : list Row) :
  (length tilemap <= length objectMap)%nat ->
  exists trees,
    generateTrees plant tilemap objectMap = Ok trees
    /\ length trees = length objectMap
    /\ forall x y,
         js_get2 trees x y
         = if bool_decide (0 <= x < Z.of_nat (length tilemap)
                           /\ 0 <= y < Z.of_nat (length tilemap))
              && isGrassAt tilemap x y && plant x y
           then Ok (Some 0) else js_get2 objectMap x y.
Proof. apply generateTrees_spec. Qed.

Lemma generateTrees_plants_on_grass_only_witness :
  exists trees,
    generateTrees (fun _ _ => true) [[Some 0; Some 1]; [Some 3; Some 0]] [[]; []] = Ok trees
    /\ length trees = length [[]; [] : Row]
    /\ forall x y,
         js_get2 trees x y
         = if bool_decide (0 <= x < Z.of_nat (length [[Some 0; Some 1]; [Some 3; Some 0]])
                           /\ 0 <= y < Z.of_nat (length [[Some 0; Some 1]; [Some 3; Some 0]]))
              && isGrassAt [[Some 0; Some 1]; [Some 3; Some 0]] x y
              && true
           then Ok (Some 0) else js_get2 [[]; []] x y.
Proof.
  apply (generateTrees_plants_on_grass_only (fun _ _ => true)
           [[Some 0; Some 1]; [Some 3; Some 0]] [[]; []]).
  simpl. lia.
Defined.

Lemma initTilemap_spec (g : Terrain) (width height : Z) :
  (0 < height -> width <= height) ->
  exists tiles,
    initTilemap g width height = Ok tiles
    /\ length tiles = Z.to_nat height
    /\ forall x y, 0 <= x < height ->
         js_get2 tiles x y
         = if bool_decide (0 <= y < height)
           then Ok (Some (freshTile g width x y)) else Ok None.
Proof.
  intros Hshape. unfold initTilemap.
  destruct (generateNoise_spec (elevation g) (emptyRows height) width height)
    as (hm & -> & Hlh & Hrh); [rewrite length_emptyRows; lia |].
  destruct (generateNoise_spec (wetness g) (emptyRows height) width height)
    as (mo & -> & Hlm & Hrm); [rewrite length_emptyRows; lia |].
  cbn [bindResult]. rewrite length_emptyRows in Hlh, Hlm.
  destruct (generateTileMap_spec (emptyRows height) hm mo)
    as (tiles & -> & Hlt & Hrt); [rewrite length_emptyRows; lia .. |].
  rewrite length_emptyRows in Hlt, Hrt.
  exists tiles. split; [reflexivity |]. split; [exact Hlt |].
  intros x y Hx. specialize (Hrt x y).
  destruct (decide (0 <= y < height)) as [Hy | Hy].
  - rewrite bool_decide_eq_true_2 by exact Hy.
    rewrite bool_decide_eq_true_2 in Hrt by lia.
    destruct Hrt as (e & m & tile & He & Hm & -> & _ & ->).
    rewrite Hrh in He. rewrite Hrm in Hm. unfold freshTile.
    destruct (decide (x < width)) as [Hw | Hw].
    + rewrite bool_decide_eq_true_2 by exact Hw.
      rewrite bool_decide_eq_true_2 in He, Hm by lia.
      injection He as <-. injection Hm as <-. reflexivity.
    + rewrite bool_decide_eq_false_2 by exact Hw.
      rewrite bool_decide_eq_false_2 in He, Hm by lia.
      rewrite js_get2_emptyRows in He, Hm by lia.
      injection He as <-. injection Hm as <-. reflexivity.
  - rewrite bool_decide_eq_false_2 by exact Hy.
    rewrite bool_decide_eq_false_2 in Hrt by lia.
    rewrite Hrt. apply js_get2_emptyRows. lia.
Qed.

Lemma initTilemap_throws (g : Terrain) (width height : Z) :
  0 < height < width -> initTilemap g width height = Throw TypeError.
Proof.
  intros Hshape. unfold initTilemap.
  rewrite generateNoise_throws; [reflexivity | lia |].
  rewrite length_emptyRows. lia.
Qed.

Lemma initObjectMap_spec (g : Terrain) (width height : Z) (tiles : list Row) :
  length tiles = Z.to_nat height ->
  (forall x y, 0 <= x < height ->
     js_get2 tiles x y
     = if bool_decide (0 <= y < height)
       then Ok (Some (freshTile g width x y)) else Ok None) ->
  exists trees,
    initObjectMap g height tiles = Ok trees
    /\ length trees = Z.to_nat height
    /\ forall x y, 0 <= x < height ->
         js_get2 trees x y
         = if bool_decide (0 <= y < height) && freshTree g width x y
           then Ok (Some 0) else Ok None.
Proof.
  intros Hlen Htiles. unfold initObjectMap.
  destruct (generateTrees_spec (plant g) tiles (emptyRows height))
    as (trees & -> & Hlt & Hrt); [rewrite length_emptyRows; lia |].
  rewrite length_emptyRows in Hlt. rewrite Hlen in Hrt.
  exists trees. split; [reflexivity |]. split; [exact Hlt |].
  intros x y Hx. rewrite Hrt, js_get2_emptyRows by lia.
  unfold isGrassAt, freshTree. rewrite Htiles by lia.
  destruct (decide (0 <= y < height)) as [Hy | Hy].
  - rewrite !bool_decide_eq_true_2 by lia. reflexivity.
  - rewrite (bool_decide_eq_false_2 (0 <= y < height)) by exact Hy.
    rewrite bool_decide_eq_false_2 by lia. reflexivity.
Qed.

Section GeneratedWorld.

Context {Character : Type}.
Variable TileData : Z -> option Z.

(** X4: a world that is not loaded from disk can be built unless
    [0 < HEIGHT < WIDTH], in which case the constructor throws a
    [TypeError] in [generateNoise]. Otherwise the world has [HEIGHT] rows of
    tiles and of objects, no players, its tile map is handed to
    [saveWorldDataToDisk], and on every cell of the [HEIGHT] x [HEIGHT]
    block: the tile is a recognized one (stone in the rows from [WIDTH]
    on, where no noise was generated), there is a tree only on grass, and
    [isPassable] returns, without throwing, whether the tile passes and
    carries no tree. *)
Theorem newWorld_generated (g : Terrain) (disk : string -> option (list Row))
    (WIDTH HEIGHT : Z) (filename : option string) :
  filename ≫= disk = None ->
  if bool_decide (0 < HEIGHT < WIDTH) then
    newWorld (Character := Character) g disk WIDTH HEIGHT filename = Throw TypeError
  else
    exists (w : World Character) (data : WorldData),
      newWorld g disk WIDTH HEIGHT filename = Ok w
      /\ initWorldData g disk WIDTH HEIGHT filename = Ok data
      /\ data_success data = false /\ data_saved data = Some (tileMap w)
      /\ width w = WIDTH /\ height w = HEIGHT
      /\ objects w = [] /\ stepCount w = 0
      /\ length (tileMap w) = Z.to_nat HEIGHT
      /\ forall x y d, 0 <= x < HEIGHT -> 0 <= y < HEIGHT ->
           cell (tileMap w) x y = Ok (Some (freshTile g WIDTH x y))
           /\ 0 <= freshTile g WIDTH x y <= 3
           /\ (WIDTH <= x -> freshTile g WIDTH x y = 2)
           /\ checkObject w x y d = Ok (freshTree g WIDTH x y)
           /\ (freshTree g WIDTH x y = true -> freshTile g WIDTH x y = 0)
           /\ isPassable TileData w x y d
              = Ok (tilePasses TileData (Some (freshTile g WIDTH x y))
                    && negb (freshTree g WIDTH x y)).
Proof using Type.
  intros Hdisk. unfold newWorld, initWorldData. rewrite Hdisk.
  case_bool_decide as Hshape.
  - rewrite initTilemap_throws by exact Hshape. reflexivity.
  - destruct (initTilemap_spec g WIDTH HEIGHT) as (tiles & -> & Hlt & Hrt); [lia |].
    cbn [bindResult].
    destruct (initObjectMap_spec g WIDTH HEIGHT tiles Hlt Hrt) as (trees & -> & Hlo & Hro).
    cbn [bindResult]. eexists _, _.
    split; [reflexivity |]. split; [reflexivity |].
    cbn. repeat (split; [reflexivity |]). split; [exact Hlt |].
    intros x y d Hx Hy.
    assert (Htile : cell tiles x y = Ok (Some (freshTile g WIDTH x y))).
    { change (cell tiles x y) with (js_get2 tiles x y).
      rewrite Hrt by lia. rewrite bool_decide_eq_true_2 by lia. reflexivity. }
    assert (Hobj : cell trees x y
                   = Ok (if freshTree g WIDTH x y then Some 0 else None)).
    { change (cell trees x y) with (js_get2 trees x y).
      rewrite Hro by lia. rewrite bool_decide_eq_true_2 by lia. cbn.
      destruct (freshTree g WIDTH x y); reflexivity. }
    split; [exact Htile |].
    split; [unfold freshTile; case_bool_decide; apply getBiomeType_range |].
    split; [intros Hw; unfold freshTile; rewrite bool_decide_eq_false_2 by lia;
            reflexivity |].
    split.
    { unfold checkObject. cbn [objectMap]. rewrite Hobj.
      destruct (freshTree g WIDTH x y); reflexivity. }
    split.
    { unfold freshTree. intros Ht. apply andb_true_iff in Ht as [Ht _].
      apply bool_decide_eq_true in Ht. exact Ht. }
    rewrite (isPassable_on_a_cell TileData
               (mkWorld WIDTH HEIGHT tiles (Some trees) [] 0) x y d trees _ _
               Htile eq_refl Hobj).
    destruct (freshTree g WIDTH x y); reflexivity.
Qed.

End GeneratedWorld.

Lemma newWorld_generated_witness :
  exists (w : World unit) (data : WorldData),
    newWorld lawn (fun _ => None) 2 3 None = Ok w
    /\ initWorldData lawn (fun _ => None) 2 3 None = Ok data
    /\ data_success data = false /\ data_saved data = Some (tileMap w)
    /\ width w = 2 /\ height w = 3
    /\ objects w = [] /\ stepCount w = 0
    /\ length (tileMap w) = Z.to_nat 3
    /\ forall x y d, 0 <= x < 3 -> 0 <= y < 3 ->
         cell (tileMap w) x y = Ok (Some (freshTile lawn 2 x y))
         /\ 0 <= freshTile lawn 2 x y <= 3
         /\ (2 <= x -> freshTile lawn 2 x y = 2)
         /\ checkObject w x y d = Ok (freshTree lawn 2 x y)
         /\ (freshTree lawn 2 x y = true -> freshTile lawn 2 x y = 0)
         /\ isPassable sampleTileData w x y d
            = Ok (tilePasses sampleTileData (Some (freshTile lawn 2 x y))
                  && negb (freshTree lawn 2 x y)).
Proof.
  exact (newWorld_generated (Character := unit) sampleTileData lawn (fun _ => None)
           2 3 None eq_refl).
Defined.

Section LoadedWorld.

Context {Character : Type}.
Variable TileData : Z -> option Z.

(** A search that ends with a tile ends with one [isPassable] accepted. *)
Lemma spawnSearch_Spawned (fuel : nat) : forall (draw : nat -> Z * Z) (i : nat)
    (w : World Character) (x y : Z),
  spawnSearch TileData fuel draw i w = Spawned x y ->
  isPassable TileData w x y 2 = Ok true.
Proof using Type.
  induction fuel as [| fuel IH]; intros draw i w x y Hs; [discriminate |].
  simpl in Hs. destruct (draw i) as [newX newY].
  destruct (isPassable TileData w newX newY 2) as [[|] | e] eqn:Hp.
  - injection Hs as <- <-. exact Hp.
  - eapply IH. exact Hs.
  - discriminate.
Qed.

(** A search that ends with a tile ends with the first draw that
    [isPassable] accepted, and every draw before it was refused. *)
Lemma spawnSearch_first (fuel : nat) : forall (draw : nat -> Z * Z) (i : nat)
    (w : World Character) (x y : Z),
  spawnSearch TileData fuel draw i w = Spawned x y ->
  exists k : nat,
    (k < fuel)%nat
    /\ draw (i + k)%nat = (x, y)
    /\ forall j, (j < k)%nat ->
         isPassable TileData w (draw (i + j)%nat).1 (draw (i + j)%nat).2 2 = Ok false.
Proof using Type.
  induction fuel as [| fuel IH]; intros draw i w x y Hs; [discriminate |].
  simpl in Hs. destruct (draw i) as [newX newY] eqn:Hdraw.
  destruct (isPassable TileData w newX newY 2) as [[|] | e] eqn:Hp.
  - injection Hs as <- <-. exists 0%nat. split; [lia |].
    split; [rewrite Nat.add_0_r; exact Hdraw |]. intros j Hj. lia.
  - destruct (IH draw (S i) w x y Hs) as (k & Hk & Hdk & Hbefore).
    exists (S k). split; [lia |].
    split; [replace (i + S k)%nat with (S i + k)%nat by lia; exact Hdk |].
    intros j Hj. destruct j as [| j].
    + rewrite Nat.add_0_r, Hdraw. exact Hp.
    + replace (i + S j)%nat with (S i + j)%nat by lia. apply Hbefore. lia.
  - discriminate.
Qed.

(** X5: a world whose tile map is loaded from disk gets the loaded tiles
    and no object map ([initWorldData] returns before [initObjectMap]).
    On such a world [isPassable] never answers [true]: wherever the tile
    passes it throws a [TypeError] in [checkObject], so the search for a
    spawn tile cannot end with a tile. *)
Theorem newWorld_loaded_has_no_objectMap (g : Terrain)
    (disk : string -> option (list Row)) (WIDTH HEIGHT : Z) (name : string)
    (tiles : list Row) :
  disk name = Some tiles ->
  exists w : World Character,
    newWorld g disk WIDTH HEIGHT (Some name) = Ok w
    /\ initWorldData g disk WIDTH HEIGHT (Some name)
       = Ok (mkWorldData tiles None true None)
    /\ tileMap w = tiles /\ objectMap w = None
    /\ width w = WIDTH /\ height w = HEIGHT
    /\ (forall x y d tile,
          cell tiles x y = Ok tile -> tilePasses TileData tile = true ->
          isPassable TileData w x y d = Throw TypeError)
    /\ (forall x y d, isPassable TileData w x y d <> Ok true)
    /\ forall fuel draw i x y, spawnSearch TileData fuel draw i w <> Spawned x y.
Proof using Type.
  intros Hdisk. unfold newWorld, initWorldData. simpl. rewrite Hdisk. simpl.
  eexists. split; [reflexivity |]. split; [reflexivity |].
  repeat (split; [reflexivity |]).
  assert (Hnever : forall x y d,
            isPassable TileData (mkWorld WIDTH HEIGHT tiles None [] 0 : World Character)
              x y d <> Ok true).
  { intros x y d. unfold isPassable, checkPassage, checkObject. simpl.
    destruct (cell tiles x y) as [tile | e]; [| discriminate].
    destruct (tilePasses TileData tile); discriminate. }
  split; [| split; [exact Hnever |]].
  - intros x y d tile Htile Hpass. unfold isPassable, checkPassage, checkObject.
    simpl. rewrite Htile, Hpass. reflexivity.
  - intros fuel draw i x y Hs. apply spawnSearch_Spawned in Hs.
    exact (Hnever x y 2 Hs).
Qed.

End LoadedWorld.

Lemma newWorld_loaded_has_no_objectMap_witness :
  exists w : World unit,
    newWorld lawn (fun _ => Some (tileMap meadow)) 2 2 (Some "world-1-2-3.json") = Ok w
    /\ initWorldData lawn (fun _ => Some (tileMap meadow)) 2 2 (Some "world-1-2-3.json")
       = Ok (mkWorldData (tileMap meadow) None true None)
    /\ tileMap w = tileMap meadow /\ objectMap w = None
    /\ width w = 2 /\ height w = 2
    /\ (forall x y d tile,
          cell (tileMap meadow) x y = Ok tile -> tilePasses sampleTileData tile = true ->
          isPassable sampleTileData w x y d = Throw TypeError)
    /\ (forall x y d, isPassable sampleTileData w x y d <> Ok true)
    /\ forall fuel draw i x y, spawnSearch sampleTileData fuel draw i w <> Spawned x y.
Proof.
  exact (newWorld_loaded_has_no_objectMap (Character := unit) sampleTileData lawn
           (fun _ => Some (tileMap meadow)) 2 2 "world-1-2-3.json" (tileMap meadow)
           eq_refl).
Defined.

(** ** The biomes *)

Lemma js_lt_false_iff (a : option Q) (b : Q) :
  js_lt a b = false <-> match a with Some x => (b <= x)%Q | None => True end.
Proof.
  destruct a as [x |]; simpl; [| tauto].
  rewrite negb_false_iff. apply Qle_bool_iff.
Qed.

Lemma js_gt_false_iff (a : option Q) (b : Q) :
  js_gt a b = false <-> match a with Some x => (x <= b)%Q | None => True end.
Proof.
  destruct a as [x |]; simpl; [| tauto].
  rewrite negb_false_iff. apply Qle_bool_iff.
Qed.

(** A number that is not below the larger of two literals is not below
    the smaller one. *)
Lemma js_lt_false_below (a : option Q) (b1 b2 : Q) :
  Qle_bool b1 b2 = true -> js_lt a b2 = false -> js_lt a b1 = false.
Proof.
  rewrite !js_lt_false_iff, Qle_bool_iff. destruct a as [x |]; [| tauto].
  intros H12 H2. eapply Qle_trans; eassumption.
Qed.

Lemma js_gt_false_above (a : option Q) (b1 b2 : Q) :
  Qle_bool b1 b2 = true -> js_gt a b1 = false -> js_gt a b2 = false.
Proof.
  rewrite !js_gt_false_iff, Qle_bool_iff. destruct a as [x |]; [| tauto].
  intros H12 H1. eapply Qle_trans; eassumption.
Qed.

(** X6: [getBiomeTypeBetter], documented to return a number, returns
    [undefined] exactly when the elevation is neither below 0.12 nor above
    0.6 and the moisture is not below 0.5 (elevations above 0.3) or not
    below 0.33 (the other elevations); a [NaN] or [undefined] argument is
    neither below nor above anything. *)
Theorem getBiomeTypeBetter_undefined (e m : option Q) :
  getBiomeTypeBetter e m = None
  <-> js_lt e lit_0_12 = false
      /\ js_gt e lit_0_6 = false
      /\ js_lt m (if js_gt e lit_0_3 then lit_0_5 else lit_0_33) = false.
Proof.
  unfold getBiomeTypeBetter. split.
  - destruct (js_lt e lit_0_1); [discriminate |].
    destruct (js_lt e lit_0_12); [discriminate |].
    destruct (js_gt e lit_0_8); [destruct (js_lt m lit_0_5); discriminate |].
    destruct (js_gt e lit_0_6);
      [destruct (js_lt m lit_0_33); [discriminate |];
       destruct (js_lt m lit_0_66); discriminate |].
    destruct (js_gt e lit_0_3).
    + destruct (js_lt m lit_0_16); [discriminate |].
      destruct (js_lt m lit_0_5); [discriminate |]. auto.
    + destruct (js_lt m lit_0_16); [discriminate |].
      destruct (js_lt m lit_0_33); [discriminate |]. auto.
  - intros (H12 & H6 & Hm).
    rewrite (js_lt_false_below e lit_0_1 lit_0_12 eq_refl H12), H12.
    rewrite (js_gt_false_above e lit_0_6 lit_0_8 eq_refl H6), H6.
    destruct (js_gt e lit_0_3).
    + rewrite (js_lt_false_below m lit_0_16 lit_0_5 eq_refl Hm), Hm.
      rewrite (js_lt_false_below m lit_0_33 lit_0_5 eq_refl Hm). reflexivity.
    + rewrite (js_lt_false_below m lit_0_16 lit_0_33 eq_refl Hm), Hm. reflexivity.
Qed.

(** At elevation 0.5 and moisture 1 no biome is returned. *)
Example getBiomeTypeBetter_half_one :
  getBiomeTypeBetter (Some (1 # 2)) (Some 1%Q) = None.
Proof. reflexivity. Qed.

(** ** More on the server *)

Section ServerExtras.

Context {Character Params : Type} `{!Game Character Params}.
Implicit Types (s : State (Character := Character)) (sid : SocketId).

Lemma updates_app (l1 l2 : list (Message (Character := Character))) :
  updates (l1 ++ l2) = updates l1 ++ updates l2.
Proof. unfold updates. apply omap_app. Qed.











(** What a connection that comes to its end has done. *)
Lemma onPlayerConnected_done (fuel : nat) (draw : nat -> Z * Z) (timeNow : Z) sid s s1 :
  onPlayerConnected fuel draw timeNow sid s = Done s1 ->
  exists x y,
    spawnSearch TileData fuel draw 0 (world (srv s)) = Spawned x y
    /\ world (srv s1) = addPlayer (world (srv s)) x y (lastPlayerID (srv s) + 1)
    /\ sent (rt s1)
       = sent (rt s)
         ++ [EmitInitWorld sid
               (mkInitWorld (players (world (srv s1)))
                  (serializeTilemap (world (srv s1)))
                  (getTreePosArray (world (srv s1)))
                  (getChestPosArray (world (srv s1)))
                  (lastPlayerID (srv s) + 1)
                  (currentWeather (world (srv s1))));
             BroadcastPlayerEvent sid
               (Some (mkPlayerEvent sid (lastPlayerID (srv s) + 1)
                        (getSeverTime timeNow (srv s)) 0 (Some x) (Some y)))]
    /\ onInputCommand (socketOf sid s1) = Some (lastPlayerID (srv s) + 1)
    /\ onDisconnect (socketOf sid s1)
       = Some (mkPlayerEvent sid (lastPlayerID (srv s) + 1)
                 (getSeverTime timeNow (srv s)) 0 (Some x) (Some y))
    /\ connected (socketOf sid s1) = connected (socketOf sid s)
    /\ forall sid', sid' <> sid -> socketOf sid' s1 = socketOf sid' s.
Proof.
  unfold onPlayerConnected, onPlayerJoinWorld.
  match goal with
  | |- context [resetIdleTimeout sid ?s4] =>
      pose proof (resetIdleTimeout_frame sid s4) as (Hsrv & Hsent & Hlog & Hconn & _ & _ & Hother);
      set (s5 := resetIdleTimeout sid s4) in *; clearbody s5
  end.
  destruct s as [sv r], s5 as [sv5 r5]. cbn in Hsrv, Hsent, Hlog. subst sv5.
  cbn [srv world set_world].
  match goal with
  | |- context [spawnSearch ?td ?f ?dr ?i ?w] =>
      destruct (spawnSearch td f dr i w) as [x y | e |] eqn:Hsearch
  end; intros Hdone; try discriminate.
  injection Hdone as <-. exists x, y. cbn in Hsearch |- *.
  split; [exact Hsearch |]. split; [reflexivity |].
  split; [rewrite Hsent, <- app_assoc; reflexivity |].
  unfold socketOf in *. cbn in *. rewrite !lookup_insert_eq. cbn.
  split; [reflexivity |]. split; [reflexivity |]. split; [exact Hconn |].
  intros sid' Hne. rewrite !lookup_insert_ne by congruence. apply Hother. exact Hne.
Qed.






Lemma noTick_refl s : noTick s s.
Proof. repeat split. Qed.

Lemma noTick_trans s1 s2 s3 : noTick s1 s2 -> noTick s2 s3 -> noTick s1 s3.
Proof. intros (Ha & Hb & Hc) (Hd & He & Hf). repeat split; congruence. Qed.

Lemma noTick_resetIdleTimeout sid s : noTick s (resetIdleTimeout sid s).
Proof.
  destruct (resetIdleTimeout_frame sid s) as (Hsrv & Hsent & _).
  unfold noTick. rewrite Hsrv, Hsent. repeat split.
Qed.

Lemma noTick_closeSocket (timeNow : Z) sid s : noTick s (closeSocket timeNow sid s).
Proof.
  unfold closeSocket. destruct (connected (socketOf sid s)); [| apply noTick_refl].
  destruct (onDisconnect (socketOf sid s)) as [playerEvent |]; [| repeat split].
  unfold disconnectListener, onPlayerDisconnected.
  destruct s as [sv r]. cbn -[updates].
  destruct (connectedPlayers sv !! sid); cbn -[updates]; unfold noTick; cbn -[updates];
    rewrite updates_app; cbn; rewrite app_nil_r; repeat split.
Qed.

Lemma noTick_queueInputForPlayer (cmd : Command) (playerId : Z) s :
  noTick s (stateOf (queueInputForPlayer cmd playerId s)).
Proof.
  unfold queueInputForPlayer.
  destruct (Map_get playerId (playerInputQueues (srv s))); repeat split.
Qed.

Lemma noTick_onReceivedInput (cmd : option Envelope) sid (playerId : Z) s :
  noTick s (stateOf (onReceivedInput cmd sid playerId s)).
Proof.
  unfold onReceivedInput.
  eapply noTick_trans; [apply (noTick_resetIdleTimeout sid) |].
  destruct cmd as [cmd |]; [| apply noTick_refl].
  destruct (switchCommand (type cmd)) as [[| | |] |];
    try apply noTick_queueInputForPlayer.
  repeat split.
Qed.

Lemma noTick_onPlayerConnected (fuel : nat) (draw : nat -> Z * Z) (timeNow : Z) sid s :
  noTick s (stateOf (onPlayerConnected fuel draw timeNow sid s)).
Proof.
  unfold onPlayerConnected, onPlayerJoinWorld.
  match goal with
  | |- context [resetIdleTimeout sid ?s4] =>
      pose proof (noTick_resetIdleTimeout sid s4) as (Htick & Hbuf & Hupd);
      set (s5 := resetIdleTimeout sid s4) in *; clearbody s5
  end.
  destruct s as [sv r], s5 as [sv5 r5]. cbn in Htick, Hbuf, Hupd.
  destruct (spawnSearch _ _ _ _ _); cbn -[updates]; unfold noTick; cbn -[updates];
    rewrite ?updates_app; cbn -[updates]; rewrite ?app_nil_r;
    repeat split; try assumption;
    rewrite Hupd; cbn; rewrite ?app_nil_r; reflexivity.
Qed.

(** Only the interval advances the tick and sends updates. *)
Lemma noTick_handle (fuel : nat) (e : Event) s :
  (forall timeNow, e <> IntervalFires timeNow) ->
  noTick s (stateOf (handle fuel e s)).
Proof.
  intros He. destruct e as [sid t0 draw | sid t0 | sid cmd | h t0 | t0]; simpl.
  - eapply noTick_trans; [| apply noTick_onPlayerConnected]. repeat split.
  - apply noTick_closeSocket.
  - destruct (connected (socketOf sid s)); [| apply noTick_refl].
    destruct (onInputCommand (socketOf sid s)); [| apply noTick_refl].
    apply noTick_onReceivedInput.
  - destruct (timers (rt s) !! h) as [[sid delay] |]; [| apply noTick_refl].
    simpl. unfold onPlayerTimeout.
    eapply noTick_trans; [| apply noTick_closeSocket]. repeat split.
  - exfalso. eapply He. reflexivity.
Qed.

Lemma gameTick_tick (timeNow : Z) s : gameTick (srv (tick timeNow s)) = gameTick (srv s) + 1.
Proof.
  destruct s as [sv r]. unfold tick, sendOutgoingBuffer, send, onServer, onRuntime.
  cbn [srv rt]. rewrite step_unfold. cbn. case_bool_decide; reflexivity.
Qed.

Lemma flushed_noTick s s' : flushed s -> noTick s s' -> flushed s'.
Proof.
  intros [Hbuf Hall] (Htick & Hb & Hupd). unfold flushed.
  rewrite Htick, Hb, Hupd. split; assumption.
Qed.

Lemma flushed_tick (timeNow : Z) s :
  0 <= gameTick (srv s) -> flushed s -> flushed (tick timeNow s).
Proof.
  intros Hpos [Hbuf Hall].
  destruct (tick_flushes_when_live timeNow s) as [Hlive Hidle].
  assert (Hweaken : Forall (fun buffer => exists payload,
                              buffer = [payload]
                              /\ 0 <= t payload < gameTick (srv s) + 1)
                      (updates (sent (rt s)))).
  { eapply Forall_impl; [exact Hall |]. intros buffer (payload & -> & Ht).
    exists payload. split; [reflexivity | lia]. }
  unfold flushed. rewrite gameTick_tick.
  destruct (decide (size (connectedPlayers (srv s)) = 0%nat)) as [Hz | Hnz].
  - destruct (Hidle Hz) as [-> ->]. split; assumption.
  - destruct (Hlive Hnz) as [-> ->]. split; [reflexivity |].
    rewrite updates_app. apply Forall_app. split; [exact Hweaken |].
    cbn. rewrite Hbuf. constructor; [| constructor].
    eexists. split; [reflexivity |]. cbn. lia.
Qed.

Lemma ticking_handle (fuel : nat) (e : Event) s :
  0 <= gameTick (srv s) -> flushed s ->
  0 <= gameTick (srv (stateOf (handle fuel e s)))
  /\ flushed (stateOf (handle fuel e s)).
Proof.
  intros Hpos Hs.
  destruct (match e with IntervalFires _ => true | _ => false end) eqn:Hkind.
  - destruct e; try discriminate. cbn [handle stateOf].
    rewrite gameTick_tick. split; [lia | apply flushed_tick; assumption].
  - assert (Hq : noTick s (stateOf (handle fuel e s))).
    { apply noTick_handle. intros timeNow ->. discriminate. }
    split; [destruct Hq as (-> & _); exact Hpos | eapply flushed_noTick; eassumption].
Qed.

Lemma ticking_run (fuel : nat) (es : list Event) : forall s,
  0 <= gameTick (srv s) -> flushed s ->
  flushed (stateOf (run fuel es s))
  /\ forall s1, run fuel es s = Done s1 ->
       gameTick (srv s1) = gameTick (srv s) + Z.of_nat (intervals es).
Proof.
  induction es as [| e es IH]; intros s Hpos Hs; simpl.
  - split; [exact Hs |]. intros s1 Hdone. injection Hdone as <-. lia.
  - destruct (ticking_handle fuel e s Hpos Hs) as [Hpos1 Hs1].
    destruct (handle fuel e s) as [s2 | err s2 | s2] eqn:He;
      cbn [stateOf] in Hpos1, Hs1;
      [| split; [exact Hs1 | discriminate] ..].
    destruct (IH s2 Hpos1 Hs1) as [Hf Hcount]. split; [exact Hf |].
    intros s1 Hdone. rewrite (Hcount s1 Hdone).
    destruct e as [sid t0 draw | sid t0 | sid cmd | h t0 | t0];
      try (match type of He with
           | handle _ ?e0 _ = _ =>
               destruct (noTick_handle fuel e0 s) as (Ht & _); [intros; discriminate |]
           end;
           rewrite He in Ht; cbn [stateOf] in Ht; rewrite Ht; cbn [intervals]; lia).
    cbn [handle] in He. injection He as <-. rewrite gameTick_tick.
    change (intervals (IntervalFires t0 :: es)) with (S (intervals es)). lia.
Qed.

(** X8: the outgoing buffer never accumulates. Whatever events a started
    server has handled, [outgoingBuffer] is empty between events and every
    ['update'] message sent so far carried exactly one payload, stamped
    with a tick that is already over; after a run handled to its end,
    [gameTick] is the number of times the interval fired. *)
Theorem updates_carry_one_payload (fuel : nat) (es : list Event) (cfg : ServerConfig)
    (w : World Character) (timeNow : Z) :
  let s := stateOf (run fuel es (newState cfg w timeNow)) in
  outgoingBuffer (srv s) = []
  /\ Forall (fun buffer => exists payload,
                buffer = [payload] /\ 0 <= t payload < gameTick (srv s))
       (updates (sent (rt s)))
  /\ forall s1, run fuel es (newState cfg w timeNow) = Done s1 ->
       gameTick (srv s1) = Z.of_nat (intervals es).
Proof.
  intros s.
  destruct (ticking_run fuel es (newState cfg w timeNow)) as [[Hbuf Hall] Hcount].
  - simpl. lia.
  - split; [reflexivity | constructor].
  - split; [exact Hbuf |]. split; [exact Hall |].
    intros s1 Hdone. rewrite (Hcount s1 Hdone). simpl. lia.
Qed.

(** X9: a client whose connection handler returns was placed on the first
    coordinate drawn that [isPassable] accepted on the world as it was;
    every draw before it was refused. The server hands that coordinate and
    the new id to [world.addPlayer], sends the client an ['initWorld']
    message read from the world [addPlayer] left (players, tiles, trees,
    chests, weather) together with the id, broadcasts to the others a
    ['playerEvent'] that carries the coordinate, and registers the socket's
    ['inputCommand'] listener for the id and its ['disconnect'] listener
    for the event. *)
Theorem connected_player_stands_on_a_passable_tile (fuel : nat)
    (draw : nat -> Z * Z) (timeNow : Z) sid s s1 :
  onPlayerConnected fuel draw timeNow sid s = Done s1 ->
  exists (k : nat) (x y : Z),
    (k < fuel)%nat
    /\ draw k = (x, y)
    /\ isPassable TileData (world (srv s)) x y 2 = Ok true
    /\ (forall j, (j < k)%nat ->
          isPassable TileData (world (srv s)) (draw j).1 (draw j).2 2 = Ok false)
    /\ world (srv s1) = addPlayer (world (srv s)) x y (lastPlayerID (srv s) + 1)
    /\ sent (rt s1)
       = sent (rt s)
         ++ [EmitInitWorld sid
               (mkInitWorld (players (world (srv s1)))
                  (serializeTilemap (world (srv s1)))
                  (getTreePosArray (world (srv s1)))
                  (getChestPosArray (world (srv s1)))
                  (lastPlayerID (srv s) + 1)
                  (currentWeather (world (srv s1))));
             BroadcastPlayerEvent sid
               (Some (mkPlayerEvent sid (lastPlayerID (srv s) + 1)
                        (getSeverTime timeNow (srv s)) 0 (Some x) (Some y)))]
    /\ onInputCommand (socketOf sid s1) = Some (lastPlayerID (srv s) + 1)
    /\ onDisconnect (socketOf sid s1)
       = Some (mkPlayerEvent sid (lastPlayerID (srv s) + 1)
                 (getSeverTime timeNow (srv s)) 0 (Some x) (Some y)).
Proof.
  intros Hdone.
  destruct (onPlayerConnected_done fuel draw timeNow sid s s1 Hdone)
    as (x & y & Hsearch & Hworld & Hsent & Hin & Hdis & _).
  destruct (spawnSearch_first TileData fuel draw 0 (world (srv s)) x y Hsearch)
    as (k & Hk & Hdraw & Hbefore).
  exists k, x, y.
  split; [exact Hk |]. split; [exact Hdraw |].
  split; [eapply spawnSearch_Spawned; exact Hsearch |].
  split; [exact Hbefore |].
  split; [exact Hworld |]. split; [exact Hsent |]. split; [exact Hin | exact Hdis].
Qed.

(** X10: an envelope of a recognized type from a player that has a queue
    appends exactly one command, the one the matching maker of
    [CommandFactory] returns for the player's character and the
    parameters, at the end of that queue; the other queues, the world and
    the log stay as they are (the command is not called before the next
    step). For a player id without a queue the handler throws a
    [TypeError] after it has reset the idle timeout. *)
Theorem onReceivedInput_enqueues_one_command (cmd : Envelope) sid (playerId : Z) s
    (kind : CommandKind) :
  switchCommand (type cmd) = Some kind ->
  match Map_get playerId (playerInputQueues (srv s)) with
  | Some queue =>
      exists s',
        onReceivedInput (Some cmd) sid playerId s = Done s'
        /\ Map_get playerId (playerInputQueues (srv s'))
           = Some (queue ++ [makeCommand kind
                               (Map_get playerId (players (world (srv s))))
                               (params cmd)])
        /\ (forall k, k <> playerId ->
              Map_get k (playerInputQueues (srv s'))
              = Map_get k (playerInputQueues (srv s)))
        /\ map fst (playerInputQueues (srv s')) = map fst (playerInputQueues (srv s))
        /\ world (srv s') = world (srv s)
        /\ logged (rt s') = logged (rt s)
        /\ sent (rt s') = sent (rt s)
  | None =>
      onReceivedInput (Some cmd) sid playerId s
      = Crashed TypeError (resetIdleTimeout sid s)
  end.
Proof.
  intros Hkind. unfold onReceivedInput. rewrite Hkind.
  destruct (resetIdleTimeout_frame sid s) as (Hsrv & Hsent & Hlog & _).
  destruct (Map_get playerId (playerInputQueues (srv s))) as [queue |] eqn:Hq.
  - assert (Hq' : Map_get playerId (playerInputQueues (srv (resetIdleTimeout sid s)))
                  = Some queue) by (rewrite Hsrv; exact Hq).
    assert (Hgoal : forall c : Command, exists s',
               queueInputForPlayer c playerId (resetIdleTimeout sid s) = Done s'
               /\ Map_get playerId (playerInputQueues (srv s')) = Some (queue ++ [c])
               /\ (forall k, k <> playerId ->
                     Map_get k (playerInputQueues (srv s'))
                     = Map_get k (playerInputQueues (srv s)))
               /\ map fst (playerInputQueues (srv s')) = map fst (playerInputQueues (srv s))
               /\ world (srv s') = world (srv s)
               /\ logged (rt s') = logged (rt s)
               /\ sent (rt s') = sent (rt s)).
    { intros c.
      destruct (queueInputForPlayer_appends c playerId (resetIdleTimeout sid s) queue Hq')
        as (s' & Hdone & Hsame & Hother & Hkeys).
      exists s'. split; [exact Hdone |]. split; [exact Hsame |].
      split; [intros k Hk; rewrite Hother by exact Hk; rewrite Hsrv; reflexivity |].
      split; [rewrite Hkeys, Hsrv; reflexivity |].
      unfold queueInputForPlayer in Hdone. rewrite Hq' in Hdone.
      injection Hdone as <-. simpl. rewrite Hsrv, Hlog, Hsent. auto. }
    destruct kind; apply Hgoal.
  - assert (Hq' : Map_get playerId (playerInputQueues (srv (resetIdleTimeout sid s)))
                  = None) by (rewrite Hsrv; exact Hq).
    destruct kind; unfold queueInputForPlayer; rewrite Hq'; reflexivity.
Qed.

Lemma js_or_not_zero (v : option Z) (d : Z) : d <> 0 -> js_or v d <> 0.
Proof.
  intros Hd. unfold js_or. destruct v as [n |]; [| exact Hd].
  case_bool_decide; [exact Hd | assumption].
Qed.

(** X11: whatever the configuration, the constructor leaves no zero in
    [intervalFrameRate] (so [1000 / intervalFrameRate] never divides by
    zero), [maximumPlayer] or [timeoutInterval]: a configured value is kept
    exactly when it is a number other than 0, and 0 or a missing value is
    replaced by 60, 50 and 40. *)
Theorem newServer_has_no_zero_setting (cfg : ServerConfig) (w : World Character)
    (timeNow : Z) :
  let sv := newServer cfg w timeNow in
  intervalFrameRate sv <> 0 /\ maximumPlayer sv <> 0 /\ timeoutInterval sv <> 0
  /\ (forall n, STEP_RATE cfg = Some n -> intervalFrameRate sv = if bool_decide (n = 0) then 60 else n)
  /\ (forall n, MAX_PLAYERS cfg = Some n -> maximumPlayer sv = if bool_decide (n = 0) then 50 else n)
  /\ (forall n, TIMEOUT_INTERVAL cfg = Some n -> timeoutInterval sv = if bool_decide (n = 0) then 40 else n)
  /\ (STEP_RATE cfg = None -> intervalFrameRate sv = 60)
  /\ (MAX_PLAYERS cfg = None -> maximumPlayer sv = 50)
  /\ (TIMEOUT_INTERVAL cfg = None -> timeoutInterval sv = 40).
Proof.
  simpl. repeat split; try (apply js_or_not_zero; lia);
    try (intros n ->; reflexivity); intros ->; reflexivity.
Qed.

(** X12: [onPlayerDisconnected] removes the client from [connectedPlayers]
    and, when the socket was tracked, hands its player id to
    [world.removePlayer]; for a socket that is not tracked it logs 'should
    not happen' and leaves the world alone. It never removes the player's input queue and never
    cancels the socket's idle timer. *)
Theorem onPlayerDisconnected_forgets_the_client sid s :
  let s' := onPlayerDisconnected sid s in
  connectedPlayers (srv s') = delete sid (connectedPlayers (srv s))
  /\ connectedPlayers (srv s') !! sid = None
  /\ playerInputQueues (srv s') = playerInputQueues (srv s)
  /\ timers (rt s') = timers (rt s)
  /\ sockets (rt s') = sockets (rt s)
  /\ sent (rt s') = sent (rt s)
  /\ match connectedPlayers (srv s) !! sid with
     | Some player =>
         world (srv s') = removePlayer (world (srv s)) (playerId player)
         /\ logged (rt s')
            = logged (rt s)
              ++ [LogClientDisconnected
                    (Z.of_nat (size (delete sid (connectedPlayers (srv s)))))]
     | None =>
         world (srv s') = world (srv s)
         /\ logged (rt s')
            = logged (rt s)
              ++ [LogShouldNotHappen;
                  LogClientDisconnected (Z.of_nat (size (connectedPlayers (srv s))))]
     end.
Proof.
  destruct s as [sv r]. unfold onPlayerDisconnected. cbn.
  destruct (connectedPlayers sv !! sid) as [player |] eqn:Hc; cbn;
    rewrite ?lookup_delete_eq; repeat split; rewrite <- ?app_assoc; try reflexivity.
  cbn. rewrite delete_id by exact Hc. reflexivity.
Qed.

(** X13: when the idle timer of a connected, tracked client fires, the
    client is logged as timed out, its socket is closed, it is removed from
    [connectedPlayers] and its player id is handed to [world.removePlayer],
    and the other clients are sent a ['playerEvent'] that carries no event
    object. The
    input queue of the player stays. *)
Theorem idle_timeout_removes_the_player (fuel : nat) (h timeNow delay : Z) sid
    (ev : PlayerEvent) (c : Client) s :
  timers (rt s) !! h = Some (sid, delay) ->
  connected (socketOf sid s) = true ->
  onDisconnect (socketOf sid s) = Some ev ->
  connectedPlayers (srv s) !! sid = Some c ->
  exists s',
    handle fuel (TimerFires h timeNow) s = Done s'
    /\ connected (socketOf sid s') = false
    /\ connectedPlayers (srv s') = delete sid (connectedPlayers (srv s))
    /\ world (srv s') = removePlayer (world (srv s)) (playerId c)
    /\ playerInputQueues (srv s') = playerInputQueues (srv s)
    /\ timers (rt s') = delete h (timers (rt s))
    /\ sent (rt s') = sent (rt s) ++ [BroadcastPlayerEvent sid None]
    /\ logged (rt s')
       = logged (rt s)
         ++ [LogTimedOut (timeoutInterval (srv s));
             LogClientDisconnected
               (Z.of_nat (size (delete sid (connectedPlayers (srv s)))));
             LogDisconnect
               (mkPlayerEvent (ev_id ev) (ev_playerId ev) (joinTime ev)
                  (getSeverTime timeNow (srv s)) (ev_x ev) (ev_y ev))].
Proof.
  intros Htimer Hconn Hdis Hclient. destruct s as [sv r].
  unfold socketOf in Hconn, Hdis. cbn in Htimer, Hconn, Hdis, Hclient.
  unfold handle. cbn [rt]. rewrite Htimer.
  unfold onPlayerTimeout, closeSocket, socketOf. cbn. rewrite Hconn, Hdis.
  unfold disconnectListener, onPlayerDisconnected. cbn. rewrite Hclient. cbn.
  eexists. split; [reflexivity |]. cbn.
  unfold socketOf. cbn. rewrite !lookup_insert_eq. cbn.
  repeat split; rewrite <- ?app_assoc; reflexivity.
Qed.

(** X14: [maximumPlayer] is never consulted: a connection from a socket
    that is not yet tracked always adds a client, whatever the number of
    clients already connected. *)
Theorem connections_are_not_limited (fuel : nat) (draw : nat -> Z * Z)
    (timeNow : Z) sid s :
  connectedPlayers (srv s) !! sid = None ->
  size (connectedPlayers (srv (stateOf (onPlayerConnected fuel draw timeNow sid s))))
  = S (size (connectedPlayers (srv s)))
  /\ connectedPlayers (srv (stateOf (onPlayerConnected fuel draw timeNow sid s))) !! sid
     = Some (mkClient sid "new" (lastPlayerID (srv s) + 1)).
Proof.
  intros Hfresh.
  destruct (onPlayerConnected_effect fuel draw timeNow sid s) as (_ & Hcp & _).
  rewrite Hcp. split; [apply map_size_insert_None; exact Hfresh |].
  apply lookup_insert_eq.
Qed.

End ServerExtras.

(** The started server with a limit of one player, after socket "a" has
    connected. *)
Lemma connections_are_not_limited_witness :
  maximumPlayer (srv (stateOf (run (Game0 := sampleGame) 1 [Connection "a" 5 origin]
                                 (newState (mkServerConfig None (Some 1) None) meadow 0))))
  = 1
  /\ size (connectedPlayers
             (srv (stateOf (onPlayerConnected (Game0 := sampleGame) 1 origin 6 "b"
                              (stateOf (run (Game0 := sampleGame) 1 [Connection "a" 5 origin]
                                          (newState (mkServerConfig None (Some 1) None)
                                             meadow 0)))))))
     = S (size (connectedPlayers
                 (srv (stateOf (run (Game0 := sampleGame) 1 [Connection "a" 5 origin]
                                  (newState (mkServerConfig None (Some 1) None)
                                     meadow 0))))))
  /\ connectedPlayers
       (srv (stateOf (onPlayerConnected (Game0 := sampleGame) 1 origin 6 "b"
                        (stateOf (run (Game0 := sampleGame) 1 [Connection "a" 5 origin]
                                    (newState (mkServerConfig None (Some 1) None)
                                       meadow 0)))))) !! "b"
     = Some (mkClient "b" "new"
               (lastPlayerID
                  (srv (stateOf (run (Game0 := sampleGame) 1 [Connection "a" 5 origin]
                                   (newState (mkServerConfig None (Some 1) None)
                                      meadow 0)))) + 1)).
Proof.
  split; [reflexivity |].
  apply (connections_are_not_limited (Game0 := sampleGame) 1 origin 6 "b").
  vm_compute. reflexivity.
Defined.

Lemma idle_timeout_removes_the_player_witness :
  exists s',
    handle (Game0 := sampleGame) 1 (TimerFires 1 40005) oneClient = Done s'
    /\ connected (socketOf "a" s') = false
    /\ connectedPlayers (srv s') = delete "a" (connectedPlayers (srv oneClient))
    /\ world (srv s')
       = removePlayer (Game := sampleGame) (world (srv oneClient))
           (playerId (mkClient "a" "new" 1))
    /\ playerInputQueues (srv s') = playerInputQueues (srv oneClient)
    /\ timers (rt s') = delete 1 (timers (rt oneClient))
    /\ sent (rt s') = sent (rt oneClient) ++ [BroadcastPlayerEvent "a" None]
    /\ logged (rt s')
       = logged (rt oneClient)
         ++ [LogTimedOut (timeoutInterval (srv oneClient));
             LogClientDisconnected
               (Z.of_nat (size (delete "a" (connectedPlayers (srv oneClient)))));
             LogDisconnect
               (mkPlayerEvent "a" 1 5 (getSeverTime 40005 (srv oneClient))
                  (Some 0) (Some 0))].
Proof.
  apply (idle_timeout_removes_the_player (Game0 := sampleGame) 1 1 40005 40000 "a"
           (mkPlayerEvent "a" 1 5 0 (Some 0) (Some 0)) (mkClient "a" "new" 1) oneClient);
    vm_compute; reflexivity.
Defined.

(** The second client on the meadow: its first draw, (0, 1), holds a
    tree; its second, (1, 1), is free. *)
Lemma connected_player_stands_on_a_passable_tile_witness :
  exists (k : nat) (x y : Z),
    (k < 2)%nat
    /\ match k with O => (0, 1) | _ => (1, 1) end = (x, y)
    /\ isPassable sampleTileData (world (srv oneClient)) x y 2 = Ok true
    /\ (forall j, (j < k)%nat ->
          isPassable sampleTileData (world (srv oneClient))
            (match j with O => (0, 1) | _ => (1, 1) end).1
            (match j with O => (0, 1) | _ => (1, 1) end).2 2 = Ok false)
    /\ world (srv twoClients)
       = addPlayer (Game := sampleGame) (world (srv oneClient)) x y
           (lastPlayerID (srv oneClient) + 1)
    /\ sent (rt twoClients)
       = sent (rt (setSocket "b" freshSocket oneClient))
         ++ [EmitInitWorld "b"
               (mkInitWorld (players (Game := sampleGame) (world (srv twoClients)))
                  (serializeTilemap (Game := sampleGame) (world (srv twoClients)))
                  (getTreePosArray (Game := sampleGame) (world (srv twoClients)))
                  (getChestPosArray (Game := sampleGame) (world (srv twoClients)))
                  (lastPlayerID (srv oneClient) + 1)
                  (currentWeather (Game := sampleGame) (world (srv twoClients))));
             BroadcastPlayerEvent "b"
               (Some (mkPlayerEvent "b" (lastPlayerID (srv oneClient) + 1)
                        (getSeverTime 9 (srv oneClient)) 0 (Some x) (Some y)))]
    /\ onInputCommand (socketOf "b" twoClients) = Some (lastPlayerID (srv oneClient) + 1)
    /\ onDisconnect (socketOf "b" twoClients)
       = Some (mkPlayerEvent "b" (lastPlayerID (srv oneClient) + 1)
                 (getSeverTime 9 (srv oneClient)) 0 (Some x) (Some y)).
Proof.
  apply (connected_player_stands_on_a_passable_tile (Game0 := sampleGame) 2
           (fun i => match i with O => (0, 1) | _ => (1, 1) end) 9 "b"
           (setSocket "b" freshSocket oneClient) twoClients).
  vm_compute. reflexivity.
Defined.

Lemma onReceivedInput_enqueues_one_command_witness :
  exists s',
    onReceivedInput (Game0 := sampleGame) (Some (mkEnvelope (JsNumber 2) 1)) "a" 1
      oneClient
    = Done s'
    /\ Map_get 1 (playerInputQueues (srv s'))
       = Some ([] ++ [makeCommand (Game0 := sampleGame) AlterTile
                        (Map_get 1 (players (Game := sampleGame)
                                      (world (srv oneClient)))) 1])
    /\ (forall k, k <> 1 ->
          Map_get k (playerInputQueues (srv s'))
          = Map_get k (playerInputQueues (srv oneClient)))
    /\ map fst (playerInputQueues (srv s')) = map fst (playerInputQueues (srv oneClient))
    /\ world (srv s') = world (srv oneClient)
    /\ logged (rt s') = logged (rt oneClient)
    /\ sent (rt s') = sent (rt oneClient).
Proof.
  exact (onReceivedInput_enqueues_one_command (Game0 := sampleGame)
           (mkEnvelope (JsNumber 2) 1) "a" 1 oneClient AlterTile eq_refl).
Defined.


(** ** The players of the world *)

Lemma Map_delete_absent {V : Type} (k : Z) (m : list (Z * V)) :
  Map_get k m = None -> Map_delete k m = m.
Proof.
  induction m as [| [k' v'] m IH]; simpl; [reflexivity |].
  case_bool_decide; [discriminate |]. intros Hm. rewrite IH by exact Hm. reflexivity.
Qed.

Lemma Map_delete_set_absent {V : Type} (k : Z) (v : V) (m : list (Z * V)) :
  Map_get k m = None -> Map_delete k (Map_set k v m) = m.
Proof.
  induction m as [| [k' v'] m IH]; simpl.
  - rewrite bool_decide_eq_true_2; reflexivity.
  - case_bool_decide as Hk; [discriminate |]. intros Hm. simpl.
    rewrite bool_decide_eq_false_2 by exact Hk. rewrite IH by exact Hm. reflexivity.
Qed.

Lemma Map_get_delete_other {V : Type} (k k0 : Z) (m : list (Z * V)) :
  k0 <> k -> Map_get k0 (Map_delete k m) = Map_get k0 m.
Proof.
  intros Hne. induction m as [| [k' v'] m IH]; simpl; [reflexivity |].
  case_bool_decide as Hk; simpl.
  - subst k'. rewrite bool_decide_eq_false_2 by exact Hne. reflexivity.
  - rewrite IH. reflexivity.
Qed.

Section PlayerProperties.

Context {Character Params : Type} `{!Game Character Params}.
Implicit Types (w : World Character).

(** X15: [addObject] makes the new player the one found under its id and
    touches no other player; for an id that is already there it replaces
    the player in place, without a second entry;
    [removeObject] undoes the [addObject] of an id that was not there, and
    does nothing for an id that is not there. Neither touches the tiles or
    the object map. *)
Theorem addObject_removeObject_round_trip w (x y playerId : Z) :
  Map_get playerId (objects (addObject w x y playerId)) = Some (newPlayer x y playerId)
  /\ (forall k, k <> playerId ->
        Map_get k (objects (addObject w x y playerId)) = Map_get k (objects w)
        /\ Map_get k (objects (removeObject w playerId)) = Map_get k (objects w))
  /\ (is_Some (Map_get playerId (objects w)) ->
        map fst (objects (addObject w x y playerId)) = map fst (objects w))
  /\ (Map_get playerId (objects w) = None ->
        map fst (objects (addObject w x y playerId)) = map fst (objects w) ++ [playerId]
        /\ removeObject (addObject w x y playerId) playerId = w
        /\ removeObject w playerId = w)
  /\ tileMap (addObject w x y playerId) = tileMap w
  /\ objectMap (addObject w x y playerId) = objectMap w
  /\ tileMap (removeObject w playerId) = tileMap w
  /\ objectMap (removeObject w playerId) = objectMap w.
Proof.
  destruct w as [wd ht tm om objs sc]. unfold addObject, removeObject. cbn.
  split; [apply Map_get_set_same |].
  split; [intros k Hk; split; [apply Map_get_set_other | apply Map_get_delete_other];
          exact Hk |].
  split; [apply Map_set_keys_present |].
  split; [| repeat split].
  intros Habsent. split; [apply Map_set_keys_absent; exact Habsent |].
  split; [rewrite Map_delete_set_absent by exact Habsent; reflexivity |].
  rewrite Map_delete_absent by exact Habsent. reflexivity.
Qed.

End PlayerProperties.

(** ** Changing a tile, again *)

Lemma js_put_twice {A : Type} (row : list (option A)) (j : Z) (v : A) :
  js_put (js_put row j v) j v = js_put row j v.
Proof.
  unfold js_put. set (n := Z.to_nat j).
  destruct (decide (n < length row)%nat) as [Hlt | Hge].
  - rewrite (bool_decide_eq_true_2 (n < length row)%nat) by exact Hlt.
    rewrite bool_decide_eq_true_2 by (rewrite length_insert; exact Hlt).
    apply list_insert_insert_eq.
  - rewrite (bool_decide_eq_false_2 (n < length row)%nat) by exact Hge.
    rewrite bool_decide_eq_true_2
      by (rewrite !length_app, length_replicate; simpl; lia).
    rewrite app_assoc.
    replace n with (length (row ++ replicate (n - length row) None) + 0)%nat at 1
      by (rewrite length_app, length_replicate; lia).
    rewrite insert_app_r. reflexivity.
Qed.

Section ChangeTileAgain.

Context {Character : Type}.
Variable TileData : Z -> option Z.
Implicit Types (w : World Character).

(** X16: a [changeTile] that goes through makes the cell pass or block as
    the new tile does and changes the answer of [isPassable] nowhere else;
    the objects and the bounds stay. Placing the same tile again leaves the
    world as it is and emits the same [worldUpdate] once more. *)
Theorem changeTile_changes_one_cell w (x y : Z) (tileId : option Z)
    (w' : World Character) (effects : list WorldEffect) :
  isValidTile w x y = true ->
  changeTile w x y tileId = Ok (w', effects) ->
  (forall bit, checkPassage TileData w' x y bit
               = Ok (tilePasses TileData (Some (default Tiles_GRASS tileId))))
  /\ (forall x' y' d, (x', y') <> (x, y) ->
        isPassable TileData w' x' y' d = isPassable TileData w x' y' d)
  /\ (forall x' y' bit, checkObject w' x' y' bit = checkObject w x' y' bit)
  /\ (forall x' y', isValidTile w' x' y' = isValidTile w x' y')
  /\ changeTile w' x y tileId = Ok (w', effects).
Proof using Type.
  intros Hvalid Hchange. unfold changeTile in Hchange. rewrite Hvalid in Hchange.
  cbn [negb] in Hchange.
  destruct (js_get (tileMap w) x) as [row |] eqn:Hrow; [| discriminate].
  injection Hchange as <- <-.
  apply isValidTile_true in Hvalid. destruct Hvalid as [Hx Hy].
  set (tid := default Tiles_GRASS tileId).
  assert (Hlookup : tileMap w !! Z.to_nat x = Some row).
  { rewrite <- js_get_lookup by lia. exact Hrow. }
  assert (Hlen : 0 <= x < Z.of_nat (length (tileMap w))).
  { apply lookup_lt_Some in Hlookup. lia. }
  destruct (js_put2_spec (tileMap w) x y tid Hlen ltac:(lia))
    as (m' & Hput & _ & Hsame & Hother).
  unfold js_put2 in Hput. rewrite Hrow in Hput. injection Hput as <-.
  split; [| split; [| split; [| split]]].
  - intros bit. unfold checkPassage. cbn [tileMap setTileMap].
    change (cell ?m ?a ?b) with (js_get2 m a b). rewrite Hsame. reflexivity.
  - intros x' y' d Hne. unfold isPassable, checkPassage, checkObject.
    cbn [tileMap objectMap setTileMap].
    change (cell ?m ?a ?b) with (js_get2 m a b). rewrite Hother by exact Hne.
    reflexivity.
  - reflexivity.
  - reflexivity.
  - unfold changeTile. cbn [setTileMap tileMap].
    assert (Hv : isValidTile (setTileMap w (<[Z.to_nat x := js_put row y tid]> (tileMap w)))
                   x y = true) by (apply isValidTile_true; cbn; lia).
    rewrite Hv. cbn [negb].
    rewrite js_get_lookup by lia.
    rewrite list_lookup_insert_eq by (eapply lookup_lt_Some; exact Hlookup).
    fold tid. rewrite js_put_twice, list_insert_insert_eq. reflexivity.
Qed.

End ChangeTileAgain.

Lemma changeTile_changes_one_cell_witness :
  (forall bit, checkPassage sampleTileData (paint 3 meadow) 0 0 bit
               = Ok (tilePasses sampleTileData (Some (default Tiles_GRASS (Some 3)))))
  /\ (forall x' y' d, (x', y') <> (0, 0) ->
        isPassable sampleTileData (paint 3 meadow) x' y' d
        = isPassable sampleTileData meadow x' y' d)
  /\ (forall x' y' bit, checkObject (paint 3 meadow) x' y' bit = checkObject meadow x' y' bit)
  /\ (forall x' y', isValidTile (paint 3 meadow) x' y' = isValidTile meadow x' y')
  /\ changeTile (paint 3 meadow) 0 0 (Some 3)
     = Ok (paint 3 meadow, [LogTileChanged 0 0 3; EmitWorldUpdate [(0, 0, 3)]]).
Proof.
  apply (changeTile_changes_one_cell sampleTileData meadow 0 0 (Some 3)); reflexivity.
Defined.

(** ** The earlier world class *)

(** X17: the constructor of the earlier [World] never throws: it builds a
    tile map of 16 rows in which each of the 16 x 16 = 256 cells is grass
    (0) where the noise drawn for it is below 0.5 and sand (1) elsewhere,
    with no objects. [addObject] then places every player at (50, 50),
    which is not a cell of that map. *)
Theorem legacy_world_is_16_by_16 (sample : Z -> Z -> Q) :
  exists w : LegacyWorld.World,
    LegacyWorld.newWorld sample = Ok w
    /\ length (LegacyWorld.tileMap w) = 16%nat
    /\ LegacyWorld.objects w = [] /\ LegacyWorld.stepCount w = 0
    /\ (forall x y, 0 <= x < 16 -> 0 <= y < 16 ->
          js_get2 (LegacyWorld.heightmap w) x y = Ok (Some (sample x y))
          /\ js_get2 (LegacyWorld.tileMap w) x y
             = Ok (Some (if Qle_bool lit_0_5 (sample x y) then 1 else 0)))
    /\ forall playerId,
         Map_get playerId (LegacyWorld.objects (LegacyWorld.addObject w playerId))
         = Some (LegacyWorld.mkObject playerId 50 50)
         /\ js_get2 (LegacyWorld.tileMap (LegacyWorld.addObject w playerId)) 50 50
            = Throw TypeError.
Proof.
  unfold LegacyWorld.newWorld, LegacyWorld.MAP_WIDTH, LegacyWorld.MAP_HEIGHT.
  change (LegacyWorld.generateNoise sample) with (generateNoise sample).
  destruct (generateNoise_spec sample (emptyRows 16) 16 16)
    as (hm & -> & Hlh & Hrh); [rewrite length_emptyRows; lia |].
  cbn [bindResult]. rewrite length_emptyRows in Hlh.
  unfold LegacyWorld.generateTileMap. rewrite length_emptyRows.
  change (Z.of_nat (Z.to_nat 16)) with 16.
  assert (Hact : forall x y,
            match js_get hm x with
            | None => Fail
            | Some hrow => Put (LegacyWorld.getBiomeType (mjoin (js_get hrow y)) (Some 0%Q))
            end
            = match js_get2 hm x y with
              | Ok e => Put (LegacyWorld.getBiomeType e (Some 0%Q))
              | Throw _ => Fail
              end).
  { intros x y. unfold js_get2. destruct (js_get hm x); reflexivity. }
  match goal with
  | |- context [fill 16 16 ?act (emptyRows 16)] =>
      destruct (fill_spec 16 16 act (emptyRows 16)) as (tiles & Hfill & Hlt & Hrt)
  end.
  { intros i j Hi Hj. unfold cellOk. rewrite Hact, Hrh.
    rewrite bool_decide_eq_true_2 by lia. rewrite length_emptyRows. lia. }
  rewrite Hfill. cbn [bindResult]. rewrite length_emptyRows in Hlt.
  eexists. split; [reflexivity |]. cbn.
  split; [exact Hlt |]. split; [reflexivity |]. split; [reflexivity |].
  split.
  - intros x y Hx Hy.
    assert (Hh : js_get2 hm x y = Ok (Some (sample x y))).
    { rewrite Hrh. rewrite bool_decide_eq_true_2 by lia. reflexivity. }
    split; [exact Hh |].
    rewrite Hrt. unfold filled. rewrite bool_decide_eq_true_2 by lia.
    rewrite Hact, Hh. unfold LegacyWorld.getBiomeType, js_lt.
    destruct (Qle_bool lit_0_5 (sample x y)); reflexivity.
  - intros playerId. split; [rewrite bool_decide_eq_true_2; reflexivity |].
    unfold js_get2. rewrite js_get_past_end; [reflexivity |]. rewrite Hlt. lia.
Qed.

(** ** Rearming the idle timeout *)

Section IdleTimeoutAgain.

Context {Character : Type}.
Implicit Types (s : State (Character := Character)) (sid : SocketId).

(** X18: with a positive [timeoutInterval], [resetIdleTimeout] leaves
    exactly one new callback pending for the socket, recorded in
    [socket.idleTimeout], and the callback the socket had recorded before
    is no longer pending; the callbacks of other sockets stay as they are.
    The new callback is armed [timeoutInterval * 1000] ms ahead as long as
    that is at most 2^31 - 1; a longer delay is replaced by 1 ms, so that
    from a [timeoutInterval] of 2147484 seconds on the client is timed out
    at once. *)
Theorem resetIdleTimeout_rearms sid s :
  0 < timeoutInterval (srv s) ->
  idleTimeout (socketOf sid s) <> Some (nextTimer (rt s)) ->
  let s' := resetIdleTimeout sid s in
  idleTimeout (socketOf sid s') = Some (nextTimer (rt s))
  /\ timers (rt s') !! nextTimer (rt s)
     = Some (sid, if bool_decide (timeoutInterval (srv s) * 1000 <= 2147483647)
                  then timeoutInterval (srv s) * 1000 else 1)
  /\ nextTimer (rt s') = nextTimer (rt s) + 1
  /\ (forall h0, idleTimeout (socketOf sid s) = Some h0 -> timers (rt s') !! h0 = None)
  /\ forall h, idleTimeout (socketOf sid s) <> Some h -> h <> nextTimer (rt s) ->
       timers (rt s') !! h = timers (rt s) !! h.
Proof.
  intros Hpos Hfresh s'. subst s'.
  assert (Hdelay : timerDelay (timeoutInterval (srv s) * 1000)
                   = if bool_decide (timeoutInterval (srv s) * 1000 <= 2147483647)
                     then timeoutInterval (srv s) * 1000 else 1).
  { unfold timerDelay. repeat case_bool_decide; try reflexivity; lia. }
  split; [| split; [| split; [| split]]].
  - unfold resetIdleTimeout.
    destruct (idleTimeout (socketOf sid s)) as [h0 |]; simpl;
      (rewrite bool_decide_eq_true_2 by lia); simpl;
      rewrite socketOf_setSocket_same; reflexivity.
  - rewrite <- Hdelay. unfold resetIdleTimeout.
    destruct (idleTimeout (socketOf sid s)) as [h0 |]; simpl;
      (rewrite bool_decide_eq_true_2 by lia); simpl; apply lookup_insert_eq.
  - unfold resetIdleTimeout.
    destruct (idleTimeout (socketOf sid s)) as [h0 |]; simpl;
      (rewrite bool_decide_eq_true_2 by lia); reflexivity.
  - intros h0 Hh0. unfold resetIdleTimeout. rewrite Hh0 in *. simpl.
    rewrite bool_decide_eq_true_2 by lia. simpl.
    rewrite lookup_insert_ne by congruence. apply lookup_delete_eq.
  - intros h Hold Hnew. apply resetIdleTimeout_other_timers; assumption.
Qed.

End IdleTimeoutAgain.

(** With the default of 40 seconds the callback is armed 40000 ms ahead;
    with 2147484 seconds configured it is armed 1 ms ahead. *)
Lemma resetIdleTimeout_rearms_witness :
  (idleTimeout (socketOf "a" (resetIdleTimeout "a" oneClient))
   = Some (nextTimer (rt oneClient))
   /\ timers (rt (resetIdleTimeout "a" oneClient)) !! nextTimer (rt oneClient)
      = Some ("a", 40000)
   /\ nextTimer (rt (resetIdleTimeout "a" oneClient)) = nextTimer (rt oneClient) + 1
   /\ (forall h0, idleTimeout (socketOf "a" oneClient) = Some h0 ->
         timers (rt (resetIdleTimeout "a" oneClient)) !! h0 = None)
   /\ forall h, idleTimeout (socketOf "a" oneClient) <> Some h ->
        h <> nextTimer (rt oneClient) ->
        timers (rt (resetIdleTimeout "a" oneClient)) !! h = timers (rt oneClient) !! h)
  /\ timeoutInterval (srv (longTimeout)) = 2147484
  /\ timers (rt (resetIdleTimeout "a" (longTimeout))) !! 1
     = Some ("a", 1).
Proof.
  split.
  - apply (resetIdleTimeout_rearms "a" oneClient); vm_compute; [reflexivity | discriminate].
  - split; [reflexivity |].
    apply (resetIdleTimeout_rearms "a" (longTimeout));
      vm_compute; [reflexivity | discriminate].
Defined.

(** ** A server without idle timeout *)

Section Disarmed.

Context {Character Params : Type} `{!Game Character Params}.
Implicit Types (s : State (Character := Character)) (sid : SocketId).

(** A change that leaves [timeoutInterval] and the pending callbacks. *)
Lemma disarmed_frame s s' :
  timeoutInterval (srv s') = timeoutInterval (srv s) ->
  timers (rt s') = timers (rt s) ->
  disarmed s -> disarmed s'.
Proof. intros Ht Hm [Hoff Hnone]. unfold disarmed. rewrite Ht, Hm. auto. Qed.

Lemma disarmed_resetIdleTimeout sid s : disarmed s -> disarmed (resetIdleTimeout sid s).
Proof.
  intros [Hoff Hnone]. unfold disarmed, resetIdleTimeout.
  destruct (idleTimeout (socketOf sid s)) as [h0 |]; simpl;
    (rewrite bool_decide_eq_false_2 by lia); simpl;
    rewrite Hnone; split; try assumption; try reflexivity;
    apply delete_empty.
Qed.

Lemma disarmed_closeSocket (timeNow : Z) sid s :
  disarmed s -> disarmed (closeSocket timeNow sid s).
Proof.
  intros Hs. unfold closeSocket. destruct (connected (socketOf sid s)); [| exact Hs].
  destruct (onDisconnect (socketOf sid s)) as [playerEvent |];
    [| eapply disarmed_frame; [| | exact Hs]; reflexivity].
  unfold disconnectListener, onPlayerDisconnected. destruct s as [sv r]. cbn.
  destruct (connectedPlayers sv !! sid); cbn;
    (eapply disarmed_frame; [| | exact Hs]; reflexivity).
Qed.

Lemma disarmed_onReceivedInput (cmd : option Envelope) sid (playerId : Z) s :
  disarmed s -> disarmed (stateOf (onReceivedInput cmd sid playerId s)).
Proof.
  intros Hs. apply (disarmed_resetIdleTimeout sid) in Hs. unfold onReceivedInput.
  destruct cmd as [cmd |]; [| exact Hs].
  destruct (switchCommand (type cmd)) as [[| | |] |]; unfold queueInputForPlayer;
    try destruct (Map_get playerId _); simpl;
    try exact Hs; (eapply disarmed_frame; [| | exact Hs]; reflexivity).
Qed.

Lemma disarmed_onPlayerConnected (fuel : nat) (draw : nat -> Z * Z) (timeNow : Z) sid s :
  disarmed s -> disarmed (stateOf (onPlayerConnected fuel draw timeNow sid s)).
Proof.
  intros Hs. unfold onPlayerConnected, onPlayerJoinWorld.
  match goal with
  | |- context [resetIdleTimeout sid ?s4] =>
      assert (Hs5 : disarmed (resetIdleTimeout sid s4))
        by (apply disarmed_resetIdleTimeout;
            eapply disarmed_frame; [| | exact Hs]; reflexivity);
      set (s5 := resetIdleTimeout sid s4) in *; clearbody s5
  end.
  destruct (spawnSearch _ _ _ _ _); simpl; try exact Hs5;
    (eapply disarmed_frame; [| | exact Hs5]; reflexivity).
Qed.

Lemma disarmed_handle (fuel : nat) (e : Event) s :
  disarmed s -> disarmed (stateOf (handle fuel e s)).
Proof.
  intros Hs. destruct e as [sid t0 draw | sid t0 | sid cmd | h t0 | t0]; simpl.
  - apply disarmed_onPlayerConnected.
    eapply disarmed_frame; [| | exact Hs]; reflexivity.
  - apply disarmed_closeSocket. exact Hs.
  - destruct (connected (socketOf sid s)); [| exact Hs].
    destruct (onInputCommand (socketOf sid s)); [| exact Hs].
    apply disarmed_onReceivedInput. exact Hs.
  - destruct Hs as [Hoff Hnone]. rewrite Hnone, lookup_empty. simpl.
    split; assumption.
  - destruct s as [sv r]. unfold tick, sendOutgoingBuffer, send, onServer, onRuntime.
    cbn [srv rt]. rewrite step_unfold. cbn.
    case_bool_decide; (eapply disarmed_frame; [| | exact Hs]; reflexivity).
Qed.

Lemma disarmed_run (fuel : nat) (es : list Event) : forall s,
  disarmed s -> disarmed (stateOf (run fuel es s)).
Proof.
  induction es as [| e es IH]; intros s Hs; simpl; [exact Hs |].
  pose proof (disarmed_handle fuel e s Hs) as He.
  destruct (handle fuel e s) as [s1 | err s1 | s1]; simpl in *;
    [apply IH; exact He | exact He | exact He].
Qed.

(** X19: a negative [TIMEOUT_INTERVAL] does switch the idle timeout off.
    Whatever events the server handles, no timeout callback is ever
    pending, no client is ever logged as timed out by a timer, and a timer
    event finds nothing to do. *)
Theorem negative_timeout_never_arms_a_timer (fuel : nat) (es : list Event)
    (cfg : ServerConfig) (w : World Character) (timeNow n : Z) :
  TIMEOUT_INTERVAL cfg = Some n -> n < 0 ->
  let s := stateOf (run fuel es (newState cfg w timeNow)) in
  timeoutInterval (srv s) = n
  /\ timers (rt s) = ∅
  /\ forall h t0, handle fuel (TimerFires h t0) s = Done s.
Proof.
  intros Hcfg Hn s.
  assert (H0 : disarmed (newState cfg w timeNow)).
  { split; [| reflexivity]. simpl. rewrite Hcfg. simpl.
    rewrite bool_decide_eq_false_2 by lia. lia. }
  assert (Hkeep : forall es0 s0,
            timeoutInterval (srv (stateOf (run fuel es0 s0))) = timeoutInterval (srv s0)).
  { induction es0 as [| e es0 IH]; intros s0; simpl; [reflexivity |].
    assert (He : timeoutInterval (srv (stateOf (handle fuel e s0)))
                 = timeoutInterval (srv s0)).
    { destruct e as [sid t0 draw | sid t0 | sid cmd | h t0 | t0]; simpl.
      - unfold onPlayerConnected, onPlayerJoinWorld.
        match goal with
        | |- context [resetIdleTimeout sid ?s4] =>
            pose proof (resetIdleTimeout_frame sid s4) as (Hsrv & _);
            set (s5 := resetIdleTimeout sid s4) in *; clearbody s5
        end.
        destruct s0 as [sv r], s5 as [sv5 r5]. cbn in Hsrv. subst sv5.
        destruct (spawnSearch _ _ _ _ _); reflexivity.
      - unfold closeSocket. destruct (connected _); [| reflexivity].
        destruct (onDisconnect _); [| reflexivity].
        unfold disconnectListener, onPlayerDisconnected. destruct s0 as [sv r]. cbn.
        destruct (connectedPlayers sv !! sid); reflexivity.
      - destruct (connected _); [| reflexivity].
        destruct (onInputCommand _); [| reflexivity].
        unfold onReceivedInput.
        destruct (resetIdleTimeout_frame sid s0) as (Hsrv & _).
        destruct cmd as [cmd |]; [| simpl; rewrite Hsrv; reflexivity].
        destruct (switchCommand (type cmd)) as [[| | |] |]; unfold queueInputForPlayer;
          try destruct (Map_get _ _); simpl; rewrite Hsrv; reflexivity.
      - destruct (timers (rt s0) !! h) as [[sid delay] |]; [| reflexivity].
        simpl. unfold onPlayerTimeout, closeSocket.
        destruct (connected _); [| reflexivity].
        destruct (onDisconnect _); [| reflexivity].
        unfold disconnectListener, onPlayerDisconnected. destruct s0 as [sv r]. cbn.
        destruct (connectedPlayers sv !! sid); reflexivity.
      - destruct s0 as [sv r]. unfold tick, sendOutgoingBuffer, send, onServer, onRuntime.
        cbn [srv rt]. rewrite step_unfold. cbn. case_bool_decide; reflexivity. }
    destruct (handle fuel e s0) as [s1 | err s1 | s1]; simpl in *;
      [rewrite IH; exact He | exact He | exact He]. }
  destruct (disarmed_run fuel es _ H0) as [_ Hnone]. fold s in Hnone.
  split.
  - unfold s. rewrite Hkeep. simpl. rewrite Hcfg. simpl.
    rewrite bool_decide_eq_false_2 by lia. reflexivity.
  - split; [exact Hnone |]. intros h t0. simpl. rewrite Hnone, lookup_empty.
    reflexivity.
Qed.

End Disarmed.

Lemma negative_timeout_never_arms_a_timer_witness :
  timeoutInterval
    (srv (stateOf (run (Game0 := sampleGame) 1
                     [Connection "a" 5 origin; InputCommand "a" (Some (mkEnvelope (JsNumber 1) 4))]
                     (newState (mkServerConfig None None (Some (-1))) meadow 0)))) = -1
  /\ timers
       (rt (stateOf (run (Game0 := sampleGame) 1
                       [Connection "a" 5 origin; InputCommand "a" (Some (mkEnvelope (JsNumber 1) 4))]
                       (newState (mkServerConfig None None (Some (-1))) meadow 0)))) = ∅
  /\ forall h t0,
       handle (Game0 := sampleGame) 1 (TimerFires h t0)
         (stateOf (run (Game0 := sampleGame) 1
                     [Connection "a" 5 origin; InputCommand "a" (Some (mkEnvelope (JsNumber 1) 4))]
                     (newState (mkServerConfig None None (Some (-1))) meadow 0)))
       = Done (stateOf (run (Game0 := sampleGame) 1
                          [Connection "a" 5 origin;
                           InputCommand "a" (Some (mkEnvelope (JsNumber 1) 4))]
                          (newState (mkServerConfig None None (Some (-1))) meadow 0))).
Proof.
  apply (negative_timeout_never_arms_a_timer (Game0 := sampleGame) 1
           [Connection "a" 5 origin; InputCommand "a" (Some (mkEnvelope (JsNumber 1) 4))]
           (mkServerConfig None None (Some (-1))) meadow 0 (-1)); [reflexivity | lia].
Defined.

(** ** Beside the rows *)

(** X20: where [x] is a row of the tile map and [y] is not an index of
    that row, [isPassable] returns [false] without looking at the object
    map, so also on a world that has none. *)
Theorem isPassable_false_beside_the_row {Character : Type} (TileData : Z -> option Z)
    (w : World Character) (x y d : Z) (row : Row) :
  js_get (tileMap w) x = Some row ->
  y < 0 \/ Z.of_nat (length row) <= y ->
  isPassable TileData w x y d = Ok false
  /\ isPassable TileData (mkWorld (width w) (height w) (tileMap w) None (objects w)
                            (stepCount w)) x y d = Ok false.
Proof.
  intros Hrow Hy. split.
  - eapply isPassable_false_off_the_columns; eassumption.
  - eapply isPassable_false_off_the_columns; [exact Hrow | exact Hy].
Qed.

Lemma isPassable_false_beside_the_row_witness :
  isPassable sampleTileData meadow 0 2 2 = Ok false
  /\ isPassable sampleTileData
       (mkWorld (width meadow) (height meadow) (tileMap meadow) None (objects meadow)
          (stepCount meadow)) 0 2 2 = Ok false.
Proof.
  apply (isPassable_false_beside_the_row sampleTileData meadow 0 2 2 [Some 0; Some 0]).
  - reflexivity.
  - right. simpl. lia.
Defined.
